(** * Credit-renewal workflow: a shallow embedding of [src/agent/graph.py]

    The workflow is a LangGraph [StateGraph] over a Python dict.  The nodes
    are embedded as programs over an effect signature (retrieval call,
    generation call, interrupt), the dict as a finite map from key names to
    Python values, and the declared edges as a successor function.  *)

From Stdlib Require Import Ascii String.
From stdpp Require Import gmap strings list fin_maps pretty.

(** ** Python values held in the state dict *)

Inductive value : Type :=
  | VNone
  | VBool (b : bool)
  | VInt (z : Z)
  | VStr (s : string).

#[global] Instance value_eq_dec : EqDecision value.
Proof. solve_decision. Defined.

(** [bool(v)]: the truth value Python gives to [v] in [not v], [if v] and
    [all([...])]. *)
Definition truthy (v : value) : bool :=
  match v with
  | VNone => false
  | VBool b => b
  | VInt z => negb (Z.eqb z 0)
  | VStr s => negb (String.eqb s "")
  end.

(** [str(v)], which is also what an f-string placeholder [{v}] prints. *)
Definition py_str (v : value) : string :=
  match v with
  | VNone => "None"
  | VBool true => "True"
  | VBool false => "False"
  | VInt z => pretty z
  | VStr s => s
  end.

(** The line feed written as a backslash-n escape in the Python literals. *)
Definition nl : string := String "010"%char "".

(** ** Exceptions *)

Inductive exn : Type :=
  | ValueError (msg : string)
  | KeyError (key : string)
  | Exception (msg : string).

(** [str(e)].  A [KeyError] prints the repr of the missing key; the keys
    used by the workflow are plain identifiers, whose repr is the key in
    single quotes. *)
Definition str_exn (e : exn) : string :=
  match e with
  | ValueError msg => msg
  | KeyError key => "'" +:+ key +:+ "'"
  | Exception msg => msg
  end.

Inductive outcome (A : Type) : Type :=
  | Returns (a : A)
  | Raises (e : exn).
Arguments Returns {A} a.
Arguments Raises {A} e.

(** ** Effects of a node and programs over them *)

(** [QueryRag] is [query_h2ogpte_rag(query, collection_id)], [QueryLlm] is
    [query_h2ogpte_llm(prompt)]: each either returns [reply.content] or
    raises.  [Interrupt] is langgraph's [interrupt(payload)], which hands
    the payload to the reviewer and evaluates to the resume value. *)
Inductive effect : Type -> Type :=
  | QueryRag (query : value) (collection_id : string) : effect (outcome string)
  | QueryLlm (prompt : string) : effect (outcome string)
  | Interrupt (payload : gmap string value) : effect value.

Inductive prog (A : Type) : Type :=
  | Ret (a : A)
  | Throw (e : exn)
  | Vis {X : Type} (c : effect X) (k : X -> prog A).
Arguments Ret {A} a.
Arguments Throw {A} e.
Arguments Vis {A X} c k.

Fixpoint prog_bind {A B : Type} (f : A -> prog B) (p : prog A) : prog B :=
  match p with
  | Ret a => f a
  | Throw e => Throw e
  | Vis c k => Vis c (fun x => prog_bind f (k x))
  end.

#[global] Instance prog_mret : MRet prog := fun _ a => Ret a.
#[global] Instance prog_mbind : MBind prog := fun _ _ f p => prog_bind f p.

(** [try: body except Exception as e: handler(e)] *)
Fixpoint try_except {A : Type} (body : prog A) (handler : exn -> prog A) : prog A :=
  match body with
  | Ret a => Ret a
  | Throw e => handler e
  | Vis c k => Vis c (fun x => try_except (k x) handler)
  end.

(** Awaiting a collaborator: its exception propagates into the caller. *)
Definition await (c : effect (outcome string)) : prog string :=
  Vis c (fun r => match r with Returns s => Ret s | Raises e => Throw e end).

Definition query_h2ogpte_rag (query : value) (collection_id : string) : prog string :=
  await (QueryRag query collection_id).

Definition query_h2ogpte_llm (prompt : string) : prog string :=
  await (QueryLlm prompt).

Definition interrupt (payload : gmap string value) : prog value :=
  Vis (Interrupt payload) (fun v => Ret v).

(** [state[key]]: raises [KeyError] when the key is missing. *)
Definition subscript (state : gmap string value) (key : string) : prog value :=
  match state !! key with
  | Some v => Ret v
  | None => Throw (KeyError key)
  end.

(** [state.get(key, dflt)] *)
Definition dict_get (state : gmap string value) (key : string) (dflt : value) : value :=
  default dflt (state !! key).

(** ** Observing a program: the calls it makes and how it ends *)

Inductive event : Type :=
  | EvRag (query : value) (collection_id : string)
  | EvLlm (prompt : string)
  | EvInterrupt (payload : gmap string value).

Definition event_of {X : Type} (c : effect X) : event :=
  match c with
  | QueryRag q cid => EvRag q cid
  | QueryLlm p => EvLlm p
  | Interrupt payload => EvInterrupt payload
  end.

(** What the outside answers to each call of one node run: the
    collaborators' replies and the reviewer's decision. *)
Definition world : Type := forall X : Type, effect X -> X.

Fixpoint run {A : Type} (w : world) (p : prog A) : list event * outcome A :=
  match p with
  | Ret a => ([], Returns a)
  | Throw e => ([], Raises e)
  | Vis c k =>
      let r := run w (k (w _ c)) in
      (event_of c :: fst r, snd r)
  end.

(** ** The nodes of [graph.py] *)

Definition ingest_renewal_alert (state : gmap string value) : prog (gmap string value) :=
  let borrower_id := dict_get state "borrower_id" (VStr "TechManufacture Inc") in
  let sector := dict_get state "sector" (VStr "Advanced Manufacturing") in
  let state := <["policy_query" :=
    VStr ("Credit policy and underwriting guidelines for " +:+ py_str borrower_id
          +:+ " in " +:+ py_str sector +:+ " sector")]> state in
  let state := <["entity_query" :=
    VStr ("Financial data, credit history, and risk profile for "
          +:+ py_str borrower_id)]> state in
  let state := <["market_query" :=
    VStr ("Market conditions, sector analysis, and economic indicators for "
          +:+ py_str sector +:+ " sector")]> state in
  Ret state.

(** [not os.getenv(name)]: true when the variable is unset or empty. *)
Definition env_missing (env : gmap string string) (name : string) : bool :=
  match env !! name with
  | None => true
  | Some s => String.eqb s ""
  end.

Definition getenv (env : gmap string string) (name : string) : string :=
  default "" (env !! name).

Definition not_set_message (name : string) : string :=
  name +:+ " environment variable not set. "
  +:+ "Please check the README for setup instructions and ensure your .env file is configured correctly.".

Definition rag_policy (env : gmap string string) (state : gmap string value)
  : prog (gmap string value) :=
  let policy_collection_id := getenv env "POLICY_COLLECTION_ID" in
  if env_missing env "POLICY_COLLECTION_ID" then
    Throw (ValueError (not_set_message "POLICY_COLLECTION_ID"))
  else
    try_except
      (q ← subscript state "policy_query";
       policy_content ← query_h2ogpte_rag q policy_collection_id;
       Ret (<["policy_pack" := VStr ("Policy Analysis:" +:+ nl +:+ policy_content)]>
            (<["accept_policy" := VBool false]> ∅)))
      (fun e =>
       Ret (<["policy_pack" := VStr ("Policy retrieval failed: " +:+ str_exn e)]>
            (<["accept_policy" := VBool false]> ∅))).

Definition rag_entity (env : gmap string string) (state : gmap string value)
  : prog (gmap string value) :=
  let entity_collection_id := getenv env "ENTITY_COLLECTION_ID" in
  if env_missing env "ENTITY_COLLECTION_ID" then
    Throw (ValueError (not_set_message "ENTITY_COLLECTION_ID"))
  else
    try_except
      (q ← subscript state "entity_query";
       entity_content ← query_h2ogpte_rag q entity_collection_id;
       Ret (<["entity_pack" := VStr ("Entity Analysis:" +:+ nl +:+ entity_content)]>
            (<["accept_entity" := VBool false]> ∅)))
      (fun e =>
       Ret (<["entity_pack" := VStr ("Entity retrieval failed: " +:+ str_exn e)]>
            (<["accept_entity" := VBool false]> ∅))).

Definition rag_market (env : gmap string string) (state : gmap string value)
  : prog (gmap string value) :=
  let market_collection_id := getenv env "MARKET_COLLECTION_ID" in
  if env_missing env "MARKET_COLLECTION_ID" then
    Throw (ValueError (not_set_message "MARKET_COLLECTION_ID"))
  else
    try_except
      (q ← subscript state "market_query";
       market_content ← query_h2ogpte_rag q market_collection_id;
       Ret (<["market_pack" := VStr ("Market Analysis:" +:+ nl +:+ market_content)]>
            (<["accept_market" := VBool false]> ∅)))
      (fun e =>
       Ret (<["market_pack" := VStr ("Market retrieval failed: " +:+ str_exn e)]>
            (<["accept_market" := VBool false]> ∅))).

Definition synthesis_prompt (policy_pack entity_pack market_pack : value) : string :=
  nl +:+ "    Based on the following information, create a comprehensive credit renewal memo:" +:+ nl
  +:+ nl
  +:+ "    Policy Context:" +:+ nl
  +:+ "    " +:+ py_str policy_pack +:+ nl
  +:+ nl
  +:+ "    Entity Analysis:" +:+ nl
  +:+ "    " +:+ py_str entity_pack +:+ nl
  +:+ nl
  +:+ "    Market Analysis:" +:+ nl
  +:+ "    " +:+ py_str market_pack +:+ nl
  +:+ nl
  +:+ "    Please provide:" +:+ nl
  +:+ "    1. Credit rating recommendation" +:+ nl
  +:+ "    2. Key covenants and conditions" +:+ nl
  +:+ "    3. Pricing recommendations" +:+ nl
  +:+ "    4. Risk factors and mitigants" +:+ nl
  +:+ "    5. Citations and supporting evidence" +:+ nl
  +:+ nl
  +:+ "    Format as a professional credit memo." +:+ nl
  +:+ "    ".

(** The prompt is built before the [try]: a missing pack key raises
    [KeyError] out of the node.  The node assigns [state['credit_memo']] and
    returns the whole dict. *)
Definition synthesize_recommendation (state : gmap string value)
  : prog (gmap string value) :=
  policy_pack ← subscript state "policy_pack";
  entity_pack ← subscript state "entity_pack";
  market_pack ← subscript state "market_pack";
  let prompt := synthesis_prompt policy_pack entity_pack market_pack in
  try_except
    (credit_memo ← query_h2ogpte_llm prompt;
     Ret (<["credit_memo" := VStr credit_memo]> state))
    (fun e =>
     Ret (<["credit_memo" := VStr ("Synthesis failed: " +:+ str_exn e)]> state)).

(** The bytes that precede each review heading in the source file. *)
Definition icon (codes : list nat) : string :=
  string_of_list_ascii (map ascii_of_nat codes).

Definition review_message (title icon_and_heading : string) (artifact : value) : string :=
  nl +:+ title +:+ nl
  +:+ nl
  +:+ icon_and_heading +:+ nl
  +:+ py_str artifact +:+ nl
  +:+ nl
  +:+ "Accept response?" +:+ nl.

Definition hitl_policy_review (state : gmap string value) : prog (gmap string value) :=
  let policy_summary :=
    review_message "POLICY RAG REVIEW:"
      (icon [195; 176; 197; 184; 226; 128; 156; 226; 128; 185] +:+ " POLICY ANALYSIS:")
      (dict_get state "policy_pack" (VStr "Not available")) in
  accept_policy ← interrupt
    (<["policy_pack" := dict_get state "policy_pack" (VStr "Not available")]>
     (<["message" := VStr policy_summary]> ∅));
  Ret (<["accept_policy" := accept_policy]> ∅).

Definition hitl_entity_review (state : gmap string value) : prog (gmap string value) :=
  let entity_summary :=
    review_message "ENTITY RAG REVIEW:"
      (icon [195; 176; 197; 184; 194; 162] +:+ " ENTITY ANALYSIS:")
      (dict_get state "entity_pack" (VStr "Not available")) in
  accept_entity ← interrupt
    (<["entity_pack" := dict_get state "entity_pack" (VStr "Not available")]>
     (<["message" := VStr entity_summary]> ∅));
  Ret (<["accept_entity" := accept_entity]> ∅).

Definition hitl_market_review (state : gmap string value) : prog (gmap string value) :=
  let market_summary :=
    review_message "MARKET RAG REVIEW:"
      (icon [195; 176; 197; 184; 226; 128; 156; 203; 134] +:+ " MARKET ANALYSIS:")
      (dict_get state "market_pack" (VStr "Not available")) in
  accept_market ← interrupt
    (<["market_pack" := dict_get state "market_pack" (VStr "Not available")]>
     (<["message" := VStr market_summary]> ∅));
  Ret (<["accept_market" := accept_market]> ∅).

Definition hitl_final_approval (state : gmap string value) : prog (gmap string value) :=
  let approval_summary :=
    review_message "FINAL APPROVAL REQUIRED - CREDIT RENEWAL MEMO:"
      (icon [195; 176; 197; 184; 226; 128; 156; 226; 128; 158] +:+ " CREDIT MEMO:")
      (dict_get state "credit_memo" (VStr "Not available")) in
  accept_synthesis ← interrupt
    (<["credit_memo" := dict_get state "credit_memo" (VStr "Not available")]>
     (<["message" := VStr approval_summary]> ∅));
  Ret (<["accept_synthesis" := accept_synthesis]> ∅).

(** ** Routing predicates *)

Definition should_rerun_policy (state : gmap string value) : bool :=
  negb (truthy (dict_get state "accept_policy" (VBool false))).

Definition should_rerun_entity (state : gmap string value) : bool :=
  negb (truthy (dict_get state "accept_entity" (VBool false))).

Definition should_rerun_market (state : gmap string value) : bool :=
  negb (truthy (dict_get state "accept_market" (VBool false))).

(** Defined in [graph.py] and referenced by no edge of the graph. *)
Definition should_synthesize (state : gmap string value) : bool :=
  forallb truthy
    [ dict_get state "accept_policy" (VBool false);
      dict_get state "accept_entity" (VBool false);
      dict_get state "accept_market" (VBool false) ].

(** ** The graph *)

Inductive node : Type :=
  | Ingest
  | RAG_Policy
  | RAG_Entity
  | RAG_Market
  | HITL_Policy
  | HITL_Entity
  | HITL_Market
  | Synthesize
  | HITL_Final
  | END.

#[global] Instance node_eq_dec : EqDecision node.
Proof. solve_decision. Defined.

(** [graph.add_node]: the function behind each node name.  [END] is
    langgraph's ["__end__"], which runs nothing. *)
Definition node_fn (env : gmap string string) (n : node)
  : gmap string value -> prog (gmap string value) :=
  match n with
  | Ingest => ingest_renewal_alert
  | RAG_Policy => rag_policy env
  | RAG_Entity => rag_entity env
  | RAG_Market => rag_market env
  | HITL_Policy => hitl_policy_review
  | HITL_Entity => hitl_entity_review
  | HITL_Market => hitl_market_review
  | Synthesize => synthesize_recommendation
  | HITL_Final => hitl_final_approval
  | END => fun _ => Ret ∅
  end.

Definition entry_point : node := Ingest.

(** [graph.add_edge] *)
Definition edges : list (node * node) :=
  [ (Ingest, RAG_Policy); (Ingest, RAG_Entity); (Ingest, RAG_Market);
    (RAG_Policy, HITL_Policy); (RAG_Entity, HITL_Entity); (RAG_Market, HITL_Market);
    (Synthesize, HITL_Final) ].

(** The four lambdas given to [graph.add_conditional_edges]. *)
Definition route_after_policy (state : gmap string value) : node :=
  if should_rerun_policy state then RAG_Policy else Synthesize.

Definition route_after_entity (state : gmap string value) : node :=
  if should_rerun_entity state then RAG_Entity else Synthesize.

Definition route_after_market (state : gmap string value) : node :=
  if should_rerun_market state then RAG_Market else Synthesize.

Definition route_after_final (state : gmap string value) : node :=
  if negb (truthy (dict_get state "accept_synthesis" (VBool false)))
  then Synthesize else END.

Definition conditional_edges (n : node) : option (gmap string value -> node) :=
  match n with
  | HITL_Policy => Some route_after_policy
  | HITL_Entity => Some route_after_entity
  | HITL_Market => Some route_after_market
  | HITL_Final => Some route_after_final
  | _ => None
  end.

(** The nodes triggered once [n] has written its update into [state]. *)
Definition successors (n : node) (state : gmap string value) : list node :=
  map snd (List.filter (fun e => bool_decide (fst e = n)) edges)
  ++ match conditional_edges n with
     | Some route => [route state]
     | None => []
     end.

(** ** The workflow engine

    The engine itself is langgraph, outside the repository.  What the
    repository fixes is the graph; the engine is taken as the scheduler the
    graph is written for: a pool of triggered nodes, any of which may run
    next (the three branches are unordered), each run merging the node's
    returned dict into the shared state and triggering the node's
    successors; a node triggered while it is already pending is pending
    once.  An exception that leaves a node aborts the run. *)

Record config : Type := Config {
  st : gmap string value;
  active : list node;
  log : list (node * event);
  failure : option exn
}.

(** One run of node [n] on [state]: the calls made, and either the merged
    state with the nodes triggered next, or the exception. *)
Definition fire (env : gmap string string) (n : node) (w : world)
    (state : gmap string value)
  : list event * outcome (gmap string value * list node) :=
  let r := run w (node_fn env n state) in
  (fst r,
   match snd r with
   | Returns update =>
       let state' := update ∪ state in
       Returns (state', successors n state')
   | Raises e => Raises e
   end).

Definition runnable (n : node) : bool := negb (bool_decide (n = END)).

(** The pool after the nodes [next] have been triggered. *)
Definition trigger (pending next : list node) : list node :=
  pending
  ++ List.filter (fun n => runnable n && negb (bool_decide (n ∈ pending))) next.

(** Run the [i]-th pending node against the answers [w]. *)
Definition exec (env : gmap string string) (c : config) (i : nat) (w : world)
  : option config :=
  match failure c with
  | Some _ => None
  | None =>
      match active c !! i with
      | None => None
      | Some n =>
          let r := fire env n w (st c) in
          let log' := log c ++ map (pair n) (fst r) in
          match snd r with
          | Returns (state', next) =>
              Some (Config state' (trigger (delete i (active c)) next) log' None)
          | Raises e => Some (Config (st c) [] log' (Some e))
          end
      end
  end.

(** [step env c (n, w) c']: node [n] is entered in configuration [c]. *)
Definition step (env : gmap string string) (c : config) (l : node * world)
    (c' : config) : Prop :=
  exists i, active c !! i = Some (fst l) /\ exec env c i (snd l) = Some c'.

Definition init_config (state : gmap string value) : config :=
  Config state [entry_point] [] None.

Inductive reachable (env : gmap string string) (state0 : gmap string value)
  : config -> Prop :=
  | reachable_init : reachable env state0 (init_config state0)
  | reachable_step c l c' :
      reachable env state0 c -> step env c l c' -> reachable env state0 c'.

(** A schedule names, turn by turn, which pending node runs and what the
    outside answers. *)
Fixpoint run_schedule (env : gmap string string) (c : config)
    (sched : list (nat * world)) : option config :=
  match sched with
  | [] => Some c
  | (i, w) :: sched' =>
      match exec env c i w with
      | Some c' => run_schedule env c' sched'
      | None => None
      end
  end.

(** The outside that answers every collaborator call with [r] and every
    interrupt with [decision]. *)
Definition answers (r : outcome string) (decision : value) : world :=
  fun X c =>
    match c in effect X return X with
    | QueryRag _ _ => r
    | QueryLlm _ => r
    | Interrupt _ => decision
    end.

(** ** The entry point [run_credit_renewal] *)

Definition thread_id (borrower_id : string) : string :=
  "credit_renewal_" +:+ borrower_id.

Definition input_data (borrower_id sector : string) : gmap string value :=
  list_to_map
    [ ("borrower_id", VStr borrower_id);
      ("sector", VStr sector);
      ("policy_query", VStr "");
      ("entity_query", VStr "");
      ("market_query", VStr "");
      ("policy_pack", VStr "");
      ("entity_pack", VStr "");
      ("market_pack", VStr "");
      ("credit_memo", VStr "");
      ("approved_memo", VStr "");
      ("rerun_policy", VBool false);
      ("rerun_entity", VBool false);
      ("rerun_market", VBool false);
      ("accept_policy", VBool false);
      ("accept_entity", VBool false);
      ("accept_market", VBool false);
      ("accept_synthesis", VBool false) ].

(** [config = {"configurable": {"thread_id": ...}}] and the state the graph
    is invoked on. *)
Definition run_credit_renewal (borrower_id sector : string)
  : gmap string value * gmap string (gmap string string) :=
  (input_data borrower_id sector,
   {[ "configurable" := {[ "thread_id" := thread_id borrower_id ]} ]}).

(** ** The three topical domains

    The retrieval stage, its gate and its routing are written out three
    times in the source; the tables below name the instance of each for a
    domain, so that a statement can range over the three. *)

Inductive domain : Type := Policy | Entity | Market.

#[global] Instance domain_eq_dec : EqDecision domain.
Proof. solve_decision. Defined.

Definition rag_of (d : domain) : node :=
  match d with Policy => RAG_Policy | Entity => RAG_Entity | Market => RAG_Market end.

Definition hitl_of (d : domain) : node :=
  match d with Policy => HITL_Policy | Entity => HITL_Entity | Market => HITL_Market end.

Definition route_after (d : domain) : gmap string value -> node :=
  match d with
  | Policy => route_after_policy
  | Entity => route_after_entity
  | Market => route_after_market
  end.

Definition title (d : domain) : string :=
  match d with Policy => "Policy" | Entity => "Entity" | Market => "Market" end.

Definition env_key (d : domain) : string :=
  match d with
  | Policy => "POLICY_COLLECTION_ID"
  | Entity => "ENTITY_COLLECTION_ID"
  | Market => "MARKET_COLLECTION_ID"
  end.

Definition query_key (d : domain) : string :=
  match d with
  | Policy => "policy_query" | Entity => "entity_query" | Market => "market_query"
  end.

Definition pack_key (d : domain) : string :=
  match d with
  | Policy => "policy_pack" | Entity => "entity_pack" | Market => "market_pack"
  end.

Definition accept_key (d : domain) : string :=
  match d with
  | Policy => "accept_policy" | Entity => "accept_entity" | Market => "accept_market"
  end.

(** What the retrieval stage of domain [d] has to write, in the words of
    the specification: the analysis text on success, the failure text
    otherwise, and the acceptance flag reset in both cases. *)
Definition retrieval_update (d : domain) (r : outcome string) : gmap string value :=
  match r with
  | Returns returned_text =>
      {[ pack_key d := VStr (title d +:+ " Analysis:" +:+ nl +:+ returned_text);
         accept_key d := VBool false ]}
  | Raises e =>
      {[ pack_key d := VStr (title d +:+ " retrieval failed: " +:+ str_exn e);
         accept_key d := VBool false ]}
  end.

(** What the retrieval attempt of domain [d] comes to on [state]: the
    collaborator's answer to the query, or the [KeyError] of the
    subscript when the query was never written. *)
Definition retrieval_result (d : domain) (w : world) (cid : string)
    (state : gmap string value) : outcome string :=
  match state !! query_key d with
  | Some q => w _ (QueryRag q cid)
  | None => Raises (KeyError (query_key d))
  end.

Definition retrieval_calls (d : domain) (cid : string) (state : gmap string value)
  : list event :=
  match state !! query_key d with
  | Some q => [EvRag q cid]
  | None => []
  end.

(** ** The nodes of [h2ogpte_nodes.py]

    The retrieval nodes there are those of [graph.py] word for word; the
    synthesis node differs in what it returns: the one-key dict instead of
    the whole state. *)
Module H2ogpteNodes.

Definition synthesize_recommendation (state : gmap string value)
  : prog (gmap string value) :=
  policy_pack ← subscript state "policy_pack";
  entity_pack ← subscript state "entity_pack";
  market_pack ← subscript state "market_pack";
  let prompt := synthesis_prompt policy_pack entity_pack market_pack in
  try_except
    (credit_memo ← query_h2ogpte_llm prompt;
     Ret (<["credit_memo" := VStr credit_memo]> ∅))
    (fun e =>
     Ret (<["credit_memo" := VStr ("Synthesis failed: " +:+ str_exn e)]> ∅)).

End H2ogpteNodes.

(** The memo text a synthesis run writes, given the collaborator's answer. *)
Definition memo_text (r : outcome string) : string :=
  match r with
  | Returns returned_text => returned_text
  | Raises e => "Synthesis failed: " +:+ str_exn e
  end.

(** The three query texts, in the words of the templates. *)
Definition policy_query_text (borrower_id sector : string) : string :=
  "Credit policy and underwriting guidelines for " +:+ borrower_id
  +:+ " in " +:+ sector +:+ " sector".

Definition entity_query_text (borrower_id : string) : string :=
  "Financial data, credit history, and risk profile for " +:+ borrower_id.

Definition market_query_text (sector : string) : string :=
  "Market conditions, sector analysis, and economic indicators for "
  +:+ sector +:+ " sector".

Definition with_queries (borrower_id sector : string) (state : gmap string value)
  : gmap string value :=
  <["market_query" := VStr (market_query_text sector)]>
    (<["entity_query" := VStr (entity_query_text borrower_id)]>
       (<["policy_query" := VStr (policy_query_text borrower_id sector)]> state)).

(** ** Environments and schedules used as concrete inputs *)

Definition env0 : gmap string string :=
  list_to_map
    [ ("POLICY_COLLECTION_ID", "policy-collection");
      ("ENTITY_COLLECTION_ID", "entity-collection");
      ("MARKET_COLLECTION_ID", "market-collection") ].

(** Retrievals succeed; Policy and Market are accepted, Entity is rejected. *)
Definition schedule_entity_rejected : list (nat * world) :=
  [ (0, answers (Returns "") VNone);
    (0, answers (Returns "policy text") VNone);
    (0, answers (Returns "entity text") VNone);
    (0, answers (Returns "market text") VNone);
    (0, answers (Returns "") (VBool true));
    (0, answers (Returns "") (VBool false));
    (0, answers (Returns "") (VBool true)) ].


Definition env_without_policy : gmap string string :=
  list_to_map
    [ ("ENTITY_COLLECTION_ID", "entity-collection");
      ("MARKET_COLLECTION_ID", "market-collection") ].

(** Ingest, then the Entity retrieval, then the Policy retrieval. *)
Definition schedule_entity_first : list (nat * world) :=
  [ (0, answers (Returns "") VNone);
    (1, answers (Returns "entity text") VNone);
    (0, answers (Returns "policy text") VNone) ].

(** Retrievals and synthesis succeed; every gate accepts. *)
Definition schedule_all_accepted : list (nat * world) :=
  [ (0, answers (Returns "") VNone);
    (0, answers (Returns "policy text") VNone);
    (0, answers (Returns "entity text") VNone);
    (0, answers (Returns "market text") VNone);
    (0, answers (Returns "") (VBool true));
    (0, answers (Returns "") (VBool true));
    (0, answers (Returns "") (VBool true));
    (0, answers (Returns "memo text") VNone);
    (0, answers (Returns "") (VBool true)) ].

(** The state of the run on "Acme Co" / "Retail" once the three packs are
    written. *)
Definition state_with_packs : gmap string value :=
  <["market_pack" := VStr ("Market Analysis:" +:+ nl +:+ "market text")]>
    (<["entity_pack" := VStr ("Entity Analysis:" +:+ nl +:+ "entity text")]>
       (<["policy_pack" := VStr ("Policy Analysis:" +:+ nl +:+ "policy text")]>
          (with_queries "Acme Co" "Retail" (input_data "Acme Co" "Retail")))).

(** ** Keys a node may change

    What each node can change in the merged state, read off the dict it
    returns: [Ingest] and [Synthesize] return the whole state with their
    fields assigned, the other nodes return the listed keys only. *)
Definition writes (n : node) : list string :=
  match n with
  | Ingest => ["policy_query"; "entity_query"; "market_query"]
  | RAG_Policy => ["policy_pack"; "accept_policy"]
  | RAG_Entity => ["entity_pack"; "accept_entity"]
  | RAG_Market => ["market_pack"; "accept_market"]
  | HITL_Policy => ["accept_policy"]
  | HITL_Entity => ["accept_entity"]
  | HITL_Market => ["accept_market"]
  | Synthesize => ["credit_memo"]
  | HITL_Final => ["accept_synthesis"]
  | END => []
  end.

(** ** The bootstrap script [create_collections.py]

    The script talks to the h2oGPTe service, the file system and the
    console.  Its calls are the constructors of [call]; [main] is a program
    over them.  [created_collections] is a Python dict that is iterated in
    insertion order, hence a list of pairs. *)
Module CreateCollections.

Inductive call : Type -> Type :=
  | Connect (address : string) (api_key : option string) : call (outcome unit)
  | ListRecentCollections (offset limit : nat) : call (outcome (list (string * string)))
  | CreateCollection (name description : string) : call (outcome string)
  | PathExists (path : string) : call bool
  | UploadFile (path file_name : string) : call (outcome string)
  | IngestUploads (collection_id : string) (upload_ids : list string)
      : call (outcome unit)
  | ReadLines (path : string) : call (outcome (list string))
  | WriteLines (path : string) (lines : list string) : call (outcome unit)
  | Stdout (text : string) : call unit.

Inductive script (A : Type) : Type :=
  | Done (a : A)
  | Raise (e : exn)
  | Call {X : Type} (c : call X) (k : X -> script A).
Arguments Done {A} a.
Arguments Raise {A} e.
Arguments Call {A X} c k.

Fixpoint bind {A B : Type} (f : A -> script B) (p : script A) : script B :=
  match p with
  | Done a => f a
  | Raise e => Raise e
  | Call c k => Call c (fun x => bind f (k x))
  end.

#[global] Instance script_mret : MRet script := fun _ a => Done a.
#[global] Instance script_mbind : MBind script := fun _ _ f p => bind f p.

(** [try: body except Exception as e: handler(e)] *)
Fixpoint try_except {A : Type} (body : script A) (handler : exn -> script A)
  : script A :=
  match body with
  | Done a => Done a
  | Raise e => handler e
  | Call c k => Call c (fun x => try_except (k x) handler)
  end.

(** A call whose exception propagates into the caller. *)
Definition invoke {A : Type} (c : call (outcome A)) : script A :=
  Call c (fun r => match r with Returns a => Done a | Raises e => Raise e end).

Definition print (text : string) : script unit := Call (Stdout text) Done.

Definition path_exists (path : string) : script bool := Call (PathExists path) Done.

(** The answers of the outside to one run of the script. *)
Definition world : Type := forall X : Type, call X -> X.

Inductive event : Type :=
  | Event {X : Type} (c : call X).

Fixpoint run {A : Type} (w : world) (p : script A) : list event * outcome A :=
  match p with
  | Done a => ([], Returns a)
  | Raise e => ([], Raises e)
  | Call c k =>
      let r := run w (k (w _ c)) in
      (Event c :: fst r, snd r)
  end.

(** Python dict operations on a dict kept in insertion order. *)
Fixpoint dict_set (d : list (string * string)) (key val : string)
  : list (string * string) :=
  match d with
  | [] => [(key, val)]
  | (k, v) :: d' =>
      if String.eqb k key then (k, val) :: d' else (k, v) :: dict_set d' key val
  end.

Fixpoint dict_get (d : list (string * string)) (key dflt : string) : string :=
  match d with
  | [] => dflt
  | (k, v) :: d' => if String.eqb k key then v else dict_get d' key dflt
  end.

(** [{c.name: c.id for c in ...}]: a later entry replaces an earlier one of
    the same name. *)
Definition existing_collections (recent : list (string * string)) : gmap string string :=
  foldl (fun m c => <[fst c := snd c]> m) ∅ recent.

(** [os.path.basename]: what follows the last slash. *)
Fixpoint has_slash (path : string) : bool :=
  match path with
  | EmptyString => false
  | String c rest => Ascii.eqb c "/" || has_slash rest
  end.

Fixpoint basename (path : string) : string :=
  match path with
  | EmptyString => EmptyString
  | String c rest =>
      if has_slash rest then basename rest
      else if Ascii.eqb c "/" then rest else String c rest
  end.

(** [str.upper] on ASCII letters; the names it is applied to are ASCII. *)
Definition upper_char (c : ascii) : ascii :=
  let n := nat_of_ascii c in
  if (97 <=? n)%nat && (n <=? 122)%nat then ascii_of_nat (n - 32) else c.

Fixpoint upper (s : string) : string :=
  match s with
  | EmptyString => EmptyString
  | String c rest => String (upper_char c) (upper rest)
  end.

(** [s.replace(" ", "_")] *)
Fixpoint replace_space (s : string) : string :=
  match s with
  | EmptyString => EmptyString
  | String c rest =>
      String (if Ascii.eqb c " " then "_"%char else c) (replace_space rest)
  end.

(** [name.upper().replace(" ", "_") + "_ID"] *)
Definition env_var_name (name : string) : string :=
  replace_space (upper name) +:+ "_ID".

Definition collections_to_create : list (string * (string * list string)) :=
  [ ("Policy Collection",
     ("Credit policy and underwriting guidelines for loan renewals",
      [ "references/policy_docs/credit_policy.json";
        "references/policy_docs/covenant_library.json";
        "references/policy_docs/rating_methodology.json";
        "references/policy_docs/exemplar_memo.json" ]));
    ("Entity Collection",
     ("Borrower financial data, credit history, and risk profiles",
      [ "references/entity_docs/borrower_profile.json";
        "references/entity_docs/financial_statements.json";
        "references/entity_docs/customer_market_position.json";
        "references/entity_docs/facility_covenant.json" ]));
    ("Market Collection",
     ("Market conditions, sector analysis, and economic indicators",
      [ "references/market_docs/sector_analysis.json";
        "references/market_docs/economic_outlook.json";
        "references/market_docs/competitive_intelligence.json" ])) ].

(** The loop over [config["documents"]]: upload the files that exist. *)
Fixpoint upload_documents (documents : list string) (uploaded_files : list string)
  : script (list string) :=
  match documents with
  | [] => Done uploaded_files
  | doc_path :: rest =>
      found ← path_exists doc_path;
      if (found : bool) then
        _ ← print ("   📄 Uploading: " +:+ doc_path);
        upload_id ← invoke (UploadFile doc_path (basename doc_path));
        _ ← print ("   ✅ Uploaded: " +:+ upload_id);
        upload_documents rest (uploaded_files ++ [upload_id])
      else
        _ ← print ("   ⚠️  File not found: " +:+ doc_path);
        upload_documents rest uploaded_files
  end.

(** The [try] block of the loop over the collections. *)
Definition create_and_ingest (collection_name description : string)
    (documents : list string) : script string :=
  collection_id ← invoke (CreateCollection collection_name description);
  _ ← print ("   ✅ Created collection: " +:+ collection_id);
  uploaded_files ← upload_documents documents [];
  _ ← (match uploaded_files with
       | [] => Done tt
       | _ :: _ =>
           _ ← print ("   📄 Ingesting " +:+ pretty (length uploaded_files)
                      +:+ " files into collection...");
           _ ← invoke (IngestUploads collection_id uploaded_files);
           print ("   ✅ Ingested " +:+ pretty (length uploaded_files) +:+ " files")
       end);
  Done collection_id.

(** The loop over [collections_to_create.items()]. *)
Fixpoint process_collections (todo : list (string * (string * list string)))
    (existing : gmap string string) (created_collections : list (string * string))
  : script (list (string * string)) :=
  match todo with
  | [] => Done created_collections
  | (collection_name, (description, documents)) :: rest =>
      _ ← print (nl +:+ "📁 Processing " +:+ collection_name +:+ "...");
      match existing !! collection_name with
      | Some collection_id =>
          _ ← print ("   ✅ Collection already exists: " +:+ collection_id);
          process_collections rest existing
            (dict_set created_collections collection_name collection_id)
      | None =>
          created_collections ←
            try_except
              (collection_id ← create_and_ingest collection_name description documents;
               Done (dict_set created_collections collection_name collection_id))
              (fun e =>
               _ ← print ("   ❌ Error creating " +:+ collection_name +:+ ": "
                          +:+ str_exn e);
               Done created_collections);
          process_collections rest existing created_collections
      end
  end.

(** The loop that rewrites the lines of the [.env] file. *)
Definition updated_line (created_collections : list (string * string)) (line : string)
  : string :=
  if String.prefix "POLICY_COLLECTION_ID=" line then
    "POLICY_COLLECTION_ID=" +:+ dict_get created_collections "Policy Collection" "" +:+ nl
  else if String.prefix "ENTITY_COLLECTION_ID=" line then
    "ENTITY_COLLECTION_ID=" +:+ dict_get created_collections "Entity Collection" "" +:+ nl
  else if String.prefix "MARKET_COLLECTION_ID=" line then
    "MARKET_COLLECTION_ID=" +:+ dict_get created_collections "Market Collection" "" +:+ nl
  else line.

Definition updated_lines (created_collections : list (string * string))
    (lines : list string) : list string :=
  map (updated_line created_collections) lines.

(** The loop that prints the identifiers when there is no [.env] file. *)
Fixpoint print_ids (created_collections : list (string * string)) : script unit :=
  match created_collections with
  | [] => Done tt
  | (name, collection_id) :: rest =>
      _ ← print (env_var_name name +:+ "=" +:+ collection_id);
      print_ids rest
  end.

Definition main (env : gmap string string) : script unit :=
  _ ← invoke (Connect (default "https://h2ogpte.genai.h2o.ai" (env !! "H2OGPTE_URL"))
                      (env !! "H2OGPTE_API_KEY"));
  if env_missing env "H2OGPTE_API_KEY" then
    Raise (ValueError (not_set_message "H2OGPTE_API_KEY"))
  else
    _ ← print "🔍 Checking existing collections...";
    recent ← invoke (ListRecentCollections 0 1000);
    created_collections ←
      process_collections collections_to_create (existing_collections recent) [];
    let env_file_path := ".env" in
    found ← path_exists env_file_path;
    _ ← (if (found : bool) then
           _ ← print (nl +:+ "📝 Updating .env file with new collection IDs...");
           lines ← invoke (ReadLines env_file_path);
           _ ← invoke (WriteLines env_file_path (updated_lines created_collections lines));
           print "   ✅ Updated .env file with new collection IDs"
         else
           _ ← print (nl +:+ "⚠️  .env file not found. Please copy from .env.example and run the script again.");
           _ ← print (nl +:+ "📋 Collection IDs to add to your .env file:");
           _ ← print "# Collection IDs for RAG queries";
           print_ids created_collections);
    print (nl +:+ "🎉 Collection creation complete!").

End CreateCollections.

(** ** Observing the calls of the script *)

(** The collection a call creates, the file it uploads, the collection it
    ingests into, the lines it writes: [None] for any other call. *)
Definition created_by (ev : CreateCollections.event) : option (string * string) :=
  match ev with
  | CreateCollections.Event (CreateCollections.CreateCollection name description) =>
      Some (name, description)
  | _ => None
  end.

Definition uploaded_by (ev : CreateCollections.event) : option (string * string) :=
  match ev with
  | CreateCollections.Event (CreateCollections.UploadFile path file_name) =>
      Some (path, file_name)
  | _ => None
  end.

Definition ingested_by (ev : CreateCollections.event) : option (string * list string) :=
  match ev with
  | CreateCollections.Event (CreateCollections.IngestUploads collection_id upload_ids) =>
      Some (collection_id, upload_ids)
  | _ => None
  end.

Definition written_by (ev : CreateCollections.event) : option (string * list string) :=
  match ev with
  | CreateCollections.Event (CreateCollections.WriteLines path lines) =>
      Some (path, lines)
  | _ => None
  end.

(** A call that reaches the service or changes a file: anything but a
    console line and a test for a path. *)
Definition is_quiet (ev : CreateCollections.event) : bool :=
  match ev with
  | CreateCollections.Event (CreateCollections.Stdout _) => true
  | CreateCollections.Event (CreateCollections.PathExists _) => true
  | _ => false
  end.

(** An outside for the script that answers by kind of call. *)
Definition script_answers (found : bool) (create upload : outcome string)
    (recent : outcome (list (string * string))) (lines : outcome (list string))
  : CreateCollections.world :=
  fun X c =>
    match c in CreateCollections.call X return X with
    | CreateCollections.Connect _ _ => Returns tt
    | CreateCollections.ListRecentCollections _ _ => recent
    | CreateCollections.CreateCollection _ _ => create
    | CreateCollections.PathExists _ => found
    | CreateCollections.UploadFile _ _ => upload
    | CreateCollections.IngestUploads _ _ => Returns tt
    | CreateCollections.ReadLines _ => lines
    | CreateCollections.WriteLines _ _ => Returns tt
    | CreateCollections.Stdout _ => tt
    end.

(** * Properties *)

(** ** Keys of the three domains *)

Lemma pack_key_inj d d' : pack_key d = pack_key d' -> d = d'.
Proof. destruct d, d'; simpl; intros H; first [reflexivity | discriminate H]. Qed.

Lemma accept_key_inj d d' : accept_key d = accept_key d' -> d = d'.
Proof. destruct d, d'; simpl; intros H; first [reflexivity | discriminate H]. Qed.

Lemma pack_key_not_accept d d' : pack_key d <> accept_key d'.
Proof. destruct d, d'; simpl; discriminate. Qed.

Lemma env_missing_false env name :
  env_missing env name = false <->
  exists cid, env !! name = Some cid /\ cid <> "".
Proof.
  unfold env_missing. destruct (env !! name) as [s|].
  - split.
    + intros H. exists s. split; [reflexivity|].
      intros ->. discriminate H.
    + intros (cid & [= ->] & Hne). apply String.eqb_neq. exact Hne.
  - split; [discriminate|]. intros (cid & H & _). discriminate H.
Qed.

(** ** Running a retrieval stage *)

Lemma run_rag_present d env w state cid :
  env !! env_key d = Some cid -> cid <> "" ->
  run w (node_fn env (rag_of d) state)
  = (retrieval_calls d cid state,
     Returns (retrieval_update d (retrieval_result d w cid state))).
Proof.
  intros Henv Hne.
  assert (Hm : env_missing env (env_key d) = false).
  { apply env_missing_false. eauto. }
  unfold retrieval_calls, retrieval_result.
  destruct d; simpl in *;
    unfold rag_policy, rag_entity, rag_market, getenv;
    rewrite Hm, Henv; simpl; unfold subscript;
    (match goal with |- context [state !! ?k] => destruct (state !! k) as [q|] end);
    simpl; [destruct (w _ (QueryRag q cid)) | | destruct (w _ (QueryRag q cid)) | 
            | destruct (w _ (QueryRag q cid)) | ]; simpl; reflexivity.
Qed.

Lemma run_rag_missing d env w state :
  env_missing env (env_key d) = true ->
  run w (node_fn env (rag_of d) state)
  = ([], Raises (ValueError (not_set_message (env_key d)))).
Proof.
  intros Hm. destruct d; simpl in *;
    unfold rag_policy, rag_entity, rag_market; rewrite Hm; reflexivity.
Qed.

Lemma retrieval_update_accept d r :
  retrieval_update d r !! accept_key d = Some (VBool false).
Proof.
  destruct r; simpl;
    (rewrite lookup_insert_ne by apply pack_key_not_accept);
    apply lookup_singleton_eq.
Qed.

Lemma retrieval_update_other d r k :
  k <> pack_key d -> k <> accept_key d -> retrieval_update d r !! k = None.
Proof.
  intros Hp Ha. destruct r; simpl;
    (rewrite lookup_insert_ne by congruence);
    apply lookup_singleton_ne; congruence.
Qed.

Lemma retrieval_update_dom d r :
  dom (retrieval_update d r) = ({[ pack_key d; accept_key d ]} : gset string).
Proof.
  destruct r; simpl; rewrite dom_insert_L, dom_singleton_L; reflexivity.
Qed.

Lemma successors_rag d state : successors (rag_of d) state = [hitl_of d].
Proof. destruct d; reflexivity. Qed.

Lemma successors_hitl d state : successors (hitl_of d) state = [route_after d state].
Proof. destruct d; reflexivity. Qed.

Lemma fire_rag_present d env w state cid :
  env !! env_key d = Some cid -> cid <> "" ->
  fire env (rag_of d) w state
  = (retrieval_calls d cid state,
     Returns (retrieval_update d (retrieval_result d w cid state) ∪ state,
              [hitl_of d])).
Proof.
  intros Henv Hne. unfold fire.
  rewrite (run_rag_present d env w state cid Henv Hne). simpl.
  rewrite successors_rag. reflexivity.
Qed.

(** ** C3: retrieval failures become reviewable text *)

(** C3.  For each of the three domains, when the collection identifier is
    set (to a non-empty string, which is what the node tests), the
    retrieval stage returns normally whatever the collaborator does: it
    returns the dict [{domain}_pack, accept_{domain}] and no other key, with
    the pack reading "<Domain> Analysis:" + line feed + the returned text on
    success and "<Domain> retrieval failed: " + the error message on
    failure, and the flag [False] in both cases; merged into the state, every
    other key keeps its value. *)
Theorem C3_retrieval_absorbs_failure (d : domain) (env : gmap string string)
    (w : world) (state : gmap string value) (cid : string) :
  env !! env_key d = Some cid -> cid <> "" ->
  let r := retrieval_result d w cid state in
  let update := retrieval_update d r in
  run w (node_fn env (rag_of d) state) = (retrieval_calls d cid state, Returns update)
  /\ dom update = ({[ pack_key d; accept_key d ]} : gset string)
  /\ update !! accept_key d = Some (VBool false)
  /\ (forall returned_text, r = Returns returned_text ->
        update !! pack_key d
        = Some (VStr (title d +:+ " Analysis:" +:+ nl +:+ returned_text)))
  /\ (forall e, r = Raises e ->
        update !! pack_key d
        = Some (VStr (title d +:+ " retrieval failed: " +:+ str_exn e)))
  /\ snd (fire env (rag_of d) w state) = Returns (update ∪ state, [hitl_of d])
  /\ (forall k, k <> pack_key d -> k <> accept_key d ->
        (update ∪ state) !! k = state !! k).
Proof.
  intros Henv Hne r update.
  split; [apply run_rag_present; assumption|].
  split; [apply retrieval_update_dom|].
  split; [apply retrieval_update_accept|].
  split; [|split; [|split]].
  - intros text Hr. subst update. rewrite Hr. simpl. apply lookup_insert_eq.
  - intros e Hr. subst update. rewrite Hr. simpl. apply lookup_insert_eq.
  - rewrite (fire_rag_present d env w state cid Henv Hne). reflexivity.
  - intros k Hp Ha. apply lookup_union_r. apply retrieval_update_other; assumption.
Qed.

(** ** C4: routing after a domain gate *)

Lemma route_after_unfold d state :
  route_after d state
  = if truthy (dict_get state (accept_key d) (VBool false))
    then Synthesize else rag_of d.
Proof.
  destruct d; simpl;
    unfold route_after_policy, route_after_entity, route_after_market,
      should_rerun_policy, should_rerun_entity, should_rerun_market;
    destruct (truthy _); reflexivity.
Qed.

Lemma rag_of_not_synthesize d : rag_of d <> Synthesize.
Proof. destruct d; discriminate. Qed.

(** C4.  After the review gate of domain [d], the routing function returns
    the domain's own retrieval node exactly when the domain's acceptance
    flag reads false, and [Synthesize] exactly when it reads true; a flag
    that is missing reads false, and so does any falsy decision the gate
    wrote; two states that agree on this one flag are routed alike, whatever
    the other flags are. *)
Theorem C4_route_after_domain_gate (d : domain) (state : gmap string value) :
  (route_after d state = rag_of d
   <-> truthy (dict_get state (accept_key d) (VBool false)) = false)
  /\ (route_after d state = Synthesize
      <-> truthy (dict_get state (accept_key d) (VBool false)) = true)
  /\ (state !! accept_key d = None -> route_after d state = rag_of d)
  /\ (forall decision,
        route_after d (<[accept_key d := decision]> state)
        = if truthy decision then Synthesize else rag_of d)
  /\ (forall state',
        state' !! accept_key d = state !! accept_key d ->
        route_after d state' = route_after d state).
Proof.
  pose proof (rag_of_not_synthesize d) as Hne.
  rewrite route_after_unfold.
  split; [|split; [|split; [|split]]].
  - destruct (truthy _); split; intros H; congruence.
  - destruct (truthy _); split; intros H; congruence.
  - intros Habs. unfold dict_get. rewrite Habs. reflexivity.
  - intros decision. rewrite route_after_unfold. unfold dict_get.
    rewrite lookup_insert_eq. reflexivity.
  - intros state' Heq. rewrite route_after_unfold. unfold dict_get.
    rewrite Heq. reflexivity.
Qed.

(** ** Steps of the engine *)

Lemma exec_inv env c i w c' :
  exec env c i w = Some c' ->
  failure c = None /\
  exists n, active c !! i = Some n /\
    ((exists update,
        snd (run w (node_fn env n (st c))) = Returns update /\
        c' = Config (update ∪ st c)
               (trigger (delete i (active c)) (successors n (update ∪ st c)))
               (log c ++ map (pair n) (fst (run w (node_fn env n (st c)))))
               None)
     \/ (exists e,
        snd (run w (node_fn env n (st c))) = Raises e /\
        c' = Config (st c) []
               (log c ++ map (pair n) (fst (run w (node_fn env n (st c)))))
               (Some e))).
Proof.
  unfold exec, fire. destruct (failure c); [discriminate|].
  destruct (active c !! i) as [n|]; [|discriminate].
  simpl. intros H. split; [reflexivity|]. exists n. split; [reflexivity|].
  destruct (snd (run w (node_fn env n (st c)))) as [update|e];
    injection H as <-; [left|right]; eauto.
Qed.

Lemma step_inv env c n w c' :
  step env c (n, w) c' ->
  failure c = None /\
  exists i, active c !! i = Some n /\
    ((exists update,
        snd (run w (node_fn env n (st c))) = Returns update /\
        c' = Config (update ∪ st c)
               (trigger (delete i (active c)) (successors n (update ∪ st c)))
               (log c ++ map (pair n) (fst (run w (node_fn env n (st c)))))
               None)
     \/ (exists e,
        snd (run w (node_fn env n (st c))) = Raises e /\
        c' = Config (st c) []
               (log c ++ map (pair n) (fst (run w (node_fn env n (st c)))))
               (Some e))).
Proof.
  intros (i & Hi & Hexec). simpl in *.
  destruct (exec_inv _ _ _ _ _ Hexec) as (Hf & n' & Hn' & Hcases).
  split; [assumption|]. exists i. split; [assumption|].
  assert (n' = n) as -> by congruence. exact Hcases.
Qed.

Lemma exec_step env c i w c' :
  exec env c i w = Some c' ->
  exists n, active c !! i = Some n /\ step env c (n, w) c'.
Proof.
  intros Hexec. destruct (exec_inv _ _ _ _ _ Hexec) as (_ & n & Hn & _).
  exists n. split; [assumption|]. exists i. split; assumption.
Qed.

Lemma run_schedule_reachable env state0 sched : forall c c',
  reachable env state0 c ->
  run_schedule env c sched = Some c' ->
  reachable env state0 c'.
Proof.
  induction sched as [|[i w] sched IH]; intros c c' Hc Hrun; simpl in Hrun.
  - injection Hrun as <-. exact Hc.
  - destruct (exec env c i w) as [c1|] eqn:Hexec; [|discriminate].
    destruct (exec_step _ _ _ _ _ Hexec) as (n & _ & Hstep).
    apply (IH c1 c'); [|exact Hrun].
    exact (reachable_step env state0 c (n, w) c1 Hc Hstep).
Qed.


(** Only the routing after the Final gate can name the terminal node. *)
Lemma successors_END n state :
  END ∈ successors n state ->
  n = HITL_Final /\ route_after_final state = END.
Proof.
  destruct n; cbn;
    unfold route_after_policy, route_after_entity, route_after_market;
    rewrite ?list_elem_of_In; simpl; intros H;
    repeat (destruct H as [H|H]; try discriminate H); try contradiction.
  - destruct (should_rerun_policy state); discriminate H.
  - destruct (should_rerun_entity state); discriminate H.
  - destruct (should_rerun_market state); discriminate H.
  - split; [reflexivity|exact H].
Qed.

Lemma route_after_final_END state :
  route_after_final state = END
  <-> truthy (dict_get state "accept_synthesis" (VBool false)) = true.
Proof.
  unfold route_after_final.
  destruct (truthy _); simpl; split; intros H; congruence.
Qed.

(** A node that returns always triggers something, unless it is the Final
    gate routing to the terminal node. *)
Lemma successors_runnable_nil n state :
  n <> END ->
  List.filter runnable (successors n state) = [] ->
  n = HITL_Final /\ route_after_final state = END.
Proof.
  intros Hn. destruct n; cbn; try discriminate; try contradiction.
  - unfold route_after_policy. destruct (should_rerun_policy state); discriminate.
  - unfold route_after_entity. destruct (should_rerun_entity state); discriminate.
  - unfold route_after_market. destruct (should_rerun_market state); discriminate.
  - intros H. split; [reflexivity|].
    destruct (route_after_final state) eqn:E; try discriminate H. reflexivity.
Qed.

Lemma elem_of_trigger pending next x :
  x ∈ trigger pending next <-> x ∈ pending \/ (x ∈ next /\ x <> END).
Proof.
  unfold trigger. rewrite elem_of_app, !list_elem_of_In, filter_In.
  unfold runnable. rewrite andb_true_iff, !negb_true_iff, !bool_decide_eq_false.
  rewrite <- !list_elem_of_In. split.
  - intros [H|(H1 & H2 & _)]; [left|right]; auto.
  - intros [H|[H1 H2]]; [left; exact H|].
    destruct (decide (x ∈ pending)); [left|right]; auto.
Qed.

Lemma trigger_nil next : trigger [] next = [] -> List.filter runnable next = [].
Proof.
  unfold trigger. rewrite app_nil_l. intros H. rewrite <- H. apply filter_ext.
  intros n. destruct (bool_decide (n ∈ [])) eqn:E.
  - apply bool_decide_eq_true in E. destruct (not_elem_of_nil _ E).
  - apply eq_sym, andb_true_r.
Qed.

Lemma reachable_no_END env state0 c :
  reachable env state0 c -> END ∉ active c.
Proof.
  induction 1 as [|c [n w] c' Hc IH Hstep].
  - simpl. unfold entry_point. rewrite list_elem_of_In. simpl. intros [H|[]]. discriminate H.
  - apply step_inv in Hstep as (_ & i & Hi & [(u & _ & ->)|(e & _ & ->)]); simpl.
    + rewrite elem_of_trigger. intros [H|[_ H]]; [|congruence].
      apply IH. eapply list_elem_of_delete_inv. exact H.
    + apply not_elem_of_nil.
Qed.

(** ** C5: routing after the Final gate, and termination *)

Lemma completed_accepts_synthesis env state0 c :
  reachable env state0 c ->
  active c = [] -> failure c = None ->
  truthy (dict_get (st c) "accept_synthesis" (VBool false)) = true.
Proof.
  intros Hreach. pose proof Hreach as Hreach0. revert Hreach0.
  destruct Hreach as [|c [n w] c' Hc Hstep]; intros Hreach'.
  - discriminate.
  - pose proof (reachable_no_END _ _ _ Hc) as HnoEND.
    apply step_inv in Hstep as (_ & i & Hi & [(u & _ & ->)|(e & _ & ->)]);
      simpl; [|discriminate].
    intros Hnil _.
    assert (Hrest : delete i (active c) = []).
    { unfold trigger in Hnil. apply app_eq_nil in Hnil as [Hrest _]. exact Hrest. }
    rewrite Hrest in Hnil. apply trigger_nil in Hnil.
    apply successors_runnable_nil in Hnil as [_ Hroute].
    + apply route_after_final_END. exact Hroute.
    + intros ->. apply HnoEND. eapply list_elem_of_lookup_2. exact Hi.
Qed.

(** C5.  The routing after the Final gate returns [Synthesize] exactly when
    [accept_synthesis] reads false and the terminal node exactly when it
    reads true.  Hence a step of the engine triggers the terminal node only
    into a state where [accept_synthesis] reads true, and a run that has
    completed (nothing pending, no failure) ends in such a state. *)
Theorem C5_final_routing_and_termination :
  (forall state,
     route_after_final state = Synthesize
     <-> truthy (dict_get state "accept_synthesis" (VBool false)) = false)
  /\ (forall state,
     route_after_final state = END
     <-> truthy (dict_get state "accept_synthesis" (VBool false)) = true)
  /\ (forall env c l c',
     step env c l c' -> failure c' = None ->
     END ∈ successors (fst l) (st c') ->
     truthy (dict_get (st c') "accept_synthesis" (VBool false)) = true)
  /\ (forall env state0 c,
     reachable env state0 c -> active c = [] -> failure c = None ->
     truthy (dict_get (st c) "accept_synthesis" (VBool false)) = true).
Proof.
  split; [|split; [|split]].
  - intros state. unfold route_after_final.
    destruct (truthy _); simpl; split; intros H; congruence.
  - apply route_after_final_END.
  - intros env c [n w] c' _ _ Hend. simpl in Hend.
    apply successors_END in Hend as [_ Hroute].
    apply route_after_final_END. exact Hroute.
  - apply completed_accepts_synthesis.
Qed.

(** ** C1: the join before Synthesis *)

(** C1.  On the input [{borrower_id: "Acme Co", sector: "Retail"}] with the
    three retrievals succeeding, the Policy and Market gates accepting and
    the Entity gate rejecting, the engine reaches a configuration in which
    [Synthesize] is pending and is entered while [accept_entity] is [False]:
    [should_synthesize] is false at the instant of entry, and the generation
    collaborator is called. *)
Theorem C1_synthesize_entered_with_rejected_entity :
  exists c w c',
    reachable env0 (input_data "Acme Co" "Retail") c
    /\ step env0 c (Synthesize, w) c'
    /\ st c !! "accept_policy" = Some (VBool true)
    /\ st c !! "accept_entity" = Some (VBool false)
    /\ st c !! "accept_market" = Some (VBool true)
    /\ should_synthesize (st c) = false
    /\ (exists prompt, (Synthesize, EvLlm prompt) ∈ log c').
Proof.
  destruct (run_schedule env0 (init_config (input_data "Acme Co" "Retail"))
              schedule_entity_rejected) as [c|] eqn:Hc;
    [|vm_compute in Hc; discriminate Hc].
  destruct (exec env0 c 0 (answers (Returns "memo") VNone)) as [c'|] eqn:Hc';
    [|vm_compute in Hc; injection Hc as <-; vm_compute in Hc'; discriminate Hc'].
  exists c, (answers (Returns "memo") VNone), c'.
  split.
  { eapply run_schedule_reachable; [apply reachable_init|exact Hc]. }
  split.
  { exists 0. split; [|exact Hc'].
    vm_compute in Hc. injection Hc as <-. reflexivity. }
  vm_compute in Hc. injection Hc as <-.
  repeat (split; [vm_compute; reflexivity|]).
  vm_compute in Hc'. injection Hc' as <-.
  eexists. rewrite list_elem_of_In. simpl.
  repeat first [left; reflexivity | right].
Qed.

(** ** C2: a missing policy collection identifier *)






(** ** Running a gate *)

Lemma update_singleton_merge (k : string) (v : value) (state : gmap string value) :
  <[k := v]> (∅ : gmap string value) ∪ state = <[k := v]> state.
Proof. rewrite <- insert_union_l. rewrite (left_id_L ∅ (∪)). reflexivity. Qed.

Lemma fire_hitl d env (w : world) state decision :
  (forall payload, w value (Interrupt payload) = decision) ->
  exists payload,
    fire env (hitl_of d) w state
    = ([EvInterrupt payload],
       Returns (<[accept_key d := decision]> state,
                [route_after d (<[accept_key d := decision]> state)])).
Proof.
  intros Hw. destruct d; eexists; unfold fire; simpl; rewrite Hw; simpl;
    rewrite update_singleton_merge; reflexivity.
Qed.

Lemma fire_hitl_final env (w : world) state decision :
  (forall payload, w value (Interrupt payload) = decision) ->
  exists payload,
    fire env HITL_Final w state
    = ([EvInterrupt payload],
       Returns (<["accept_synthesis" := decision]> state,
                [route_after_final (<["accept_synthesis" := decision]> state)])).
Proof.
  intros Hw. eexists; unfold fire; simpl; rewrite Hw; simpl;
    rewrite update_singleton_merge; reflexivity.
Qed.

(** ** C6: rejecting at a domain gate *)

(** C6.  For each domain [d]: when the reviewer's decision at the gate of
    [d] is falsy, the gate writes it into [accept_d], which then reads
    false, and the routing triggers the retrieval stage of [d]; the gate and
    the routing leave the packs and flags of the other two domains as they
    were, and so does the retrieval that runs again, which returns with
    [accept_d = False] and hands over to the gate of [d] (it raises only if
    the collection identifier of [d] is missing). *)
Theorem C6_reject_domain_gate (d : domain) (env : gmap string string)
    (w w' : world) (state : gmap string value) (decision : value) :
  (forall payload, w value (Interrupt payload) = decision) ->
  truthy decision = false ->
  let state1 := <[accept_key d := decision]> state in
  snd (fire env (hitl_of d) w state) = Returns (state1, [rag_of d])
  /\ truthy (dict_get state1 (accept_key d) (VBool false)) = false
  /\ (forall d', d' <> d ->
        state1 !! pack_key d' = state !! pack_key d'
        /\ state1 !! accept_key d' = state !! accept_key d')
  /\ match snd (fire env (rag_of d) w' state1) with
     | Returns (state2, next) =>
         next = [hitl_of d]
         /\ state2 !! accept_key d = Some (VBool false)
         /\ (forall d', d' <> d ->
               state2 !! pack_key d' = state !! pack_key d'
               /\ state2 !! accept_key d' = state !! accept_key d')
     | Raises e => env_missing env (env_key d) = true
     end.
Proof.
  intros Hw Hfalsy state1.
  assert (Hframe1 : forall d', d' <> d ->
            state1 !! pack_key d' = state !! pack_key d'
            /\ state1 !! accept_key d' = state !! accept_key d').
  { intros d' Hne. subst state1. split; apply lookup_insert_ne.
    - intros H. exact (pack_key_not_accept d' d (eq_sym H)).
    - intros H. apply Hne. symmetry. exact (accept_key_inj _ _ H). }
  split; [|split; [|split]].
  - destruct (fire_hitl d env w state decision Hw) as (payload & ->). simpl.
    fold state1. rewrite route_after_unfold. unfold dict_get. subst state1.
    rewrite lookup_insert_eq. simpl. rewrite Hfalsy. reflexivity.
  - unfold dict_get. subst state1. rewrite lookup_insert_eq. exact Hfalsy.
  - exact Hframe1.
  - destruct (env_missing env (env_key d)) eqn:Hm.
    + unfold fire. rewrite (run_rag_missing d env w' state1 Hm). reflexivity.
    + apply env_missing_false in Hm as (cid & Henv & Hcid).
      rewrite (fire_rag_present d env w' state1 cid Henv Hcid). simpl.
      split; [reflexivity|]. split.
      * apply lookup_union_Some_l. apply retrieval_update_accept.
      * intros d' Hne. destruct (Hframe1 d' Hne) as [Hp Ha].
        rewrite <- Hp, <- Ha. split; apply lookup_union_r;
          apply retrieval_update_other.
        -- intros H. apply Hne. exact (pack_key_inj _ _ H).
        -- apply pack_key_not_accept.
        -- intros H. exact (pack_key_not_accept d d' (eq_sym H)).
        -- intros H. apply Hne. exact (accept_key_inj _ _ H).
Qed.

(** ** Running Synthesis *)

Lemma run_synthesize (w : world) state pp ep mp :
  state !! "policy_pack" = Some pp ->
  state !! "entity_pack" = Some ep ->
  state !! "market_pack" = Some mp ->
  run w (synthesize_recommendation state)
  = ([EvLlm (synthesis_prompt pp ep mp)],
     Returns (<["credit_memo" := VStr (memo_text (w _ (QueryLlm (synthesis_prompt pp ep mp))))]>
              state)).
Proof.
  intros Hp He Hm. unfold synthesize_recommendation, subscript.
  rewrite Hp. simpl. rewrite He. simpl. rewrite Hm. simpl.
  destruct (w _ (QueryLlm (synthesis_prompt pp ep mp))); reflexivity.
Qed.

Lemma run_synthesize_nodes (w : world) state pp ep mp :
  state !! "policy_pack" = Some pp ->
  state !! "entity_pack" = Some ep ->
  state !! "market_pack" = Some mp ->
  run w (H2ogpteNodes.synthesize_recommendation state)
  = ([EvLlm (synthesis_prompt pp ep mp)],
     Returns (<["credit_memo" := VStr (memo_text (w _ (QueryLlm (synthesis_prompt pp ep mp))))]>
              ∅)).
Proof.
  intros Hp He Hm. unfold H2ogpteNodes.synthesize_recommendation, subscript.
  rewrite Hp. simpl. rewrite He. simpl. rewrite Hm. simpl.
  destruct (w _ (QueryLlm (synthesis_prompt pp ep mp))); reflexivity.
Qed.

Lemma update_whole_merge (k : string) (v : value) (state : gmap string value) :
  <[k := v]> state ∪ state = <[k := v]> state.
Proof.
  apply map_eq. intros j. destruct (decide (k = j)) as [->|Hne].
  - rewrite lookup_insert_eq. apply lookup_union_Some_l. apply lookup_insert_eq.
  - rewrite lookup_union, !lookup_insert_ne by exact Hne.
    destruct (state !! j); reflexivity.
Qed.

Lemma fire_synthesize env (w : world) state pp ep mp :
  state !! "policy_pack" = Some pp ->
  state !! "entity_pack" = Some ep ->
  state !! "market_pack" = Some mp ->
  fire env Synthesize w state
  = ([EvLlm (synthesis_prompt pp ep mp)],
     Returns (<["credit_memo" := VStr (memo_text (w _ (QueryLlm (synthesis_prompt pp ep mp))))]>
              state,
              [HITL_Final])).
Proof.
  intros Hp He Hm. unfold fire. simpl node_fn.
  rewrite (run_synthesize w state pp ep mp Hp He Hm). simpl.
  rewrite update_whole_merge. reflexivity.
Qed.

(** A Synthesis run that returned found the three packs, and left them. *)
Lemma fire_synthesize_inv env (w : world) state0 state next :
  snd (fire env Synthesize w state0) = Returns (state, next) ->
  exists pp ep mp,
    state !! "policy_pack" = Some pp
    /\ state !! "entity_pack" = Some ep
    /\ state !! "market_pack" = Some mp.
Proof.
  unfold fire. simpl node_fn. unfold synthesize_recommendation, subscript.
  destruct (state0 !! "policy_pack") as [pp|] eqn:Hp; [|discriminate].
  destruct (state0 !! "entity_pack") as [ep|] eqn:He; [|discriminate].
  destruct (state0 !! "market_pack") as [mp|] eqn:Hm; [|discriminate].
  intros H. exists pp, ep, mp.
  pose proof (fire_synthesize env w state0 pp ep mp Hp He Hm) as Hfire.
  unfold fire in Hfire. simpl node_fn in Hfire.
  unfold synthesize_recommendation, subscript in Hfire.
  rewrite Hp, He, Hm in Hfire. rewrite Hfire in H. simpl in H.
  injection H as <- _.
  rewrite !lookup_insert_ne by discriminate. auto.
Qed.

(** ** C7: rejecting at the Final gate *)

(** C7.  Let [state] be as a Synthesis run left it.  When the reviewer's
    decision at the Final gate is falsy, the routing triggers [Synthesize]
    again; that run calls the generation collaborator on the prompt built
    from the three packs and returns, writing into [credit_memo] the
    returned text, or "Synthesis failed: " + the error message when the
    collaborator fails; the memo written does not depend on the memo that
    was there, every other key keeps its value, in particular the three
    packs; the node of [h2ogpte_nodes.py] returns the same memo as a
    one-key update. *)
Theorem C7_reject_final_reruns_synthesis (env : gmap string string)
    (w0 w w' : world) (state0 state : gmap string value) (next0 : list node)
    (decision : value) :
  snd (fire env Synthesize w0 state0) = Returns (state, next0) ->
  (forall payload, w value (Interrupt payload) = decision) ->
  truthy decision = false ->
  let state1 := <["accept_synthesis" := decision]> state in
  exists pp ep mp,
    let memo := memo_text (w' _ (QueryLlm (synthesis_prompt pp ep mp))) in
    let state2 := <["credit_memo" := VStr memo]> state1 in
    state !! "policy_pack" = Some pp
    /\ state !! "entity_pack" = Some ep
    /\ state !! "market_pack" = Some mp
    /\ snd (fire env HITL_Final w state) = Returns (state1, [Synthesize])
    /\ fire env Synthesize w' state1
       = ([EvLlm (synthesis_prompt pp ep mp)], Returns (state2, [HITL_Final]))
    /\ (forall old,
          snd (fire env Synthesize w' (<["credit_memo" := old]> state1))
          = Returns (state2, [HITL_Final]))
    /\ state2 !! "credit_memo" = Some (VStr memo)
    /\ (forall k, k <> "credit_memo" -> state2 !! k = state1 !! k)
    /\ state2 !! "policy_pack" = state !! "policy_pack"
    /\ state2 !! "entity_pack" = state !! "entity_pack"
    /\ state2 !! "market_pack" = state !! "market_pack"
    /\ snd (run w' (H2ogpteNodes.synthesize_recommendation state1))
       = Returns (<["credit_memo" := VStr memo]> ∅).
Proof.
  intros Hprev Hw Hfalsy state1.
  destruct (fire_synthesize_inv env w0 state0 state next0 Hprev)
    as (pp & ep & mp & Hp & He & Hm).
  assert (Hp1 : state1 !! "policy_pack" = Some pp).
  { subst state1. rewrite lookup_insert_ne by discriminate. exact Hp. }
  assert (He1 : state1 !! "entity_pack" = Some ep).
  { subst state1. rewrite lookup_insert_ne by discriminate. exact He. }
  assert (Hm1 : state1 !! "market_pack" = Some mp).
  { subst state1. rewrite lookup_insert_ne by discriminate. exact Hm. }
  exists pp, ep, mp. intros memo state2.
  split; [exact Hp|]. split; [exact He|]. split; [exact Hm|].
  split.
  { destruct (fire_hitl_final env w state decision Hw) as (payload & ->). simpl.
    fold state1. unfold route_after_final, dict_get. subst state1.
    rewrite lookup_insert_eq. simpl. rewrite Hfalsy. reflexivity. }
  split.
  { apply fire_synthesize; assumption. }
  split.
  { intros old.
    rewrite (fire_synthesize env w' (<["credit_memo" := old]> state1) pp ep mp).
    - simpl. rewrite insert_insert_eq. reflexivity.
    - rewrite lookup_insert_ne by discriminate. exact Hp1.
    - rewrite lookup_insert_ne by discriminate. exact He1.
    - rewrite lookup_insert_ne by discriminate. exact Hm1. }
  split.
  { apply lookup_insert_eq. }
  split.
  { intros k Hk. apply lookup_insert_ne. congruence. }
  subst state2 state1.
  repeat (split; [rewrite !lookup_insert_ne by discriminate; reflexivity|]).
  rewrite (run_synthesize_nodes w' _ pp ep mp Hp1 He1 Hm1). reflexivity.
Qed.

(** ** C8, C9: the Ingest stage *)

Lemma ingest_unfold state :
  ingest_renewal_alert state
  = Ret (with_queries
           (py_str (dict_get state "borrower_id" (VStr "TechManufacture Inc")))
           (py_str (dict_get state "sector" (VStr "Advanced Manufacturing")))
           state).
Proof. reflexivity. Qed.

Lemma with_queries_other b s state k :
  k <> "policy_query" -> k <> "entity_query" -> k <> "market_query" ->
  with_queries b s state !! k = state !! k.
Proof.
  intros Hp He Hm. unfold with_queries.
  rewrite !lookup_insert_ne by congruence. reflexivity.
Qed.

(** C8.  On a state that carries any two strings as [borrower_id] and
    [sector], the empty string included, the Ingest stage is a plain return:
    it makes no call whatever the outside is, raises nothing, and returns the
    state with the three query fields set from the templates and every other
    key as it was; merged by the engine, that is the new state, and the
    three retrieval stages are triggered. *)
Theorem C8_ingest_total (env : gmap string string) (w : world)
    (state : gmap string value) (borrower_id sector : string) :
  state !! "borrower_id" = Some (VStr borrower_id) ->
  state !! "sector" = Some (VStr sector) ->
  let state' := with_queries borrower_id sector state in
  ingest_renewal_alert state = Ret state'
  /\ run w (ingest_renewal_alert state) = ([], Returns state')
  /\ fire env Ingest w state
     = ([], Returns (state', [RAG_Policy; RAG_Entity; RAG_Market]))
  /\ state' !! "policy_query"
     = Some (VStr ("Credit policy and underwriting guidelines for " +:+ borrower_id
                   +:+ " in " +:+ sector +:+ " sector"))
  /\ state' !! "entity_query"
     = Some (VStr ("Financial data, credit history, and risk profile for "
                   +:+ borrower_id))
  /\ state' !! "market_query"
     = Some (VStr ("Market conditions, sector analysis, and economic indicators for "
                   +:+ sector +:+ " sector"))
  /\ (forall k,
        k <> "policy_query" -> k <> "entity_query" -> k <> "market_query" ->
        state' !! k = state !! k).
Proof.
  intros Hb Hs state'.
  assert (Hingest : ingest_renewal_alert state = Ret state').
  { rewrite ingest_unfold. unfold dict_get. rewrite Hb, Hs. reflexivity. }
  split; [exact Hingest|].
  split; [rewrite Hingest; reflexivity|].
  split.
  { unfold fire. simpl node_fn. rewrite Hingest. simpl.
    assert (Hmerge : state' ∪ state = state').
    { apply map_eq. intros k. rewrite lookup_union.
      destruct (decide (k = "policy_query")) as [->|Hp];
        [subst state'; unfold with_queries;
         rewrite !lookup_insert_ne by discriminate; rewrite lookup_insert_eq;
         destruct (state !! "policy_query"); reflexivity|].
      destruct (decide (k = "entity_query")) as [->|He];
        [subst state'; unfold with_queries;
         rewrite !lookup_insert_ne by discriminate; rewrite lookup_insert_eq;
         destruct (state !! "entity_query"); reflexivity|].
      destruct (decide (k = "market_query")) as [->|Hm];
        [subst state'; unfold with_queries; rewrite lookup_insert_eq;
         destruct (state !! "market_query"); reflexivity|].
      subst state'. rewrite with_queries_other by assumption.
      destruct (state !! k); reflexivity. }
    rewrite Hmerge. reflexivity. }
  subst state'. unfold with_queries.
  split; [rewrite !lookup_insert_ne by discriminate; apply lookup_insert_eq|].
  split; [rewrite !lookup_insert_ne by discriminate; apply lookup_insert_eq|].
  split; [apply lookup_insert_eq|].
  intros k Hp He Hm. rewrite !lookup_insert_ne by congruence. reflexivity.
Qed.

(** C9.  The Ingest stage returns on every state.  The text it puts in the
    templates for the borrower is 'TechManufacture Inc' when [borrower_id]
    is missing from the state, and the one for the sector is
    'Advanced Manufacturing' when [sector] is missing; a value that is there
    is printed as it is.  Neither default is the empty string. *)
Theorem C9_ingest_defaults (state : gmap string value) :
  exists borrower_text sector_text,
    ingest_renewal_alert state = Ret (with_queries borrower_text sector_text state)
    /\ (state !! "borrower_id" = None -> borrower_text = "TechManufacture Inc")
    /\ (state !! "sector" = None -> sector_text = "Advanced Manufacturing")
    /\ (forall v, state !! "borrower_id" = Some v -> borrower_text = py_str v)
    /\ (forall v, state !! "sector" = Some v -> sector_text = py_str v)
    /\ "TechManufacture Inc" <> "" /\ "Advanced Manufacturing" <> "".
Proof.
  eexists _, _. split; [apply ingest_unfold|]. unfold dict_get.
  split; [intros ->; reflexivity|].
  split; [intros ->; reflexivity|].
  split; [intros v ->; reflexivity|].
  split; [intros v ->; reflexivity|].
  split; discriminate.
Qed.

(** ** C10: the run key *)


(** ** The statements at concrete inputs *)


Lemma C3_retrieval_failure_witness :
  env0 !! env_key Entity = Some "entity-collection"
  /\ "entity-collection" <> ""
  /\ snd (fire env0 (rag_of Entity) (answers (Raises (Exception "timeout")) VNone)
           state_with_packs)
     = Returns (retrieval_update Entity (Raises (Exception "timeout")) ∪ state_with_packs,
                [hitl_of Entity]).
Proof.
  assert (H1 : env0 !! env_key Entity = Some "entity-collection") by reflexivity.
  assert (H2 : "entity-collection" <> "") by discriminate.
  split; [exact H1|]. split; [exact H2|].
  pose proof (C3_retrieval_absorbs_failure Entity env0
                (answers (Raises (Exception "timeout")) VNone)
                state_with_packs "entity-collection" H1 H2) as H.
  cbv zeta in H. destruct H as (_ & _ & _ & _ & _ & H & _). exact H.
Defined.

Lemma C4_missing_flag_witness :
  (∅ : gmap string value) !! accept_key Policy = None
  /\ route_after Policy ∅ = rag_of Policy.
Proof.
  assert (H : (∅ : gmap string value) !! accept_key Policy = None) by reflexivity.
  split; [exact H|].
  exact (proj1 (proj2 (proj2 (C4_route_after_domain_gate Policy ∅))) H).
Defined.

Lemma C5_completed_run_witness :
  exists c,
    reachable env0 (input_data "Acme Co" "Retail") c
    /\ active c = [] /\ failure c = None
    /\ truthy (dict_get (st c) "accept_synthesis" (VBool false)) = true.
Proof.
  destruct (run_schedule env0 (init_config (input_data "Acme Co" "Retail"))
              schedule_all_accepted) as [c|] eqn:Hc;
    [|vm_compute in Hc; discriminate Hc].
  assert (Hreach : reachable env0 (input_data "Acme Co" "Retail") c).
  { eapply run_schedule_reachable; [apply reachable_init|exact Hc]. }
  assert (Ha : active c = []).
  { vm_compute in Hc. injection Hc as <-. reflexivity. }
  assert (Hf : failure c = None).
  { vm_compute in Hc. injection Hc as <-. reflexivity. }
  exists c. split; [exact Hreach|]. split; [exact Ha|]. split; [exact Hf|].
  exact (proj2 (proj2 (proj2 C5_final_routing_and_termination))
           env0 _ c Hreach Ha Hf).
Defined.

Lemma C6_reject_entity_witness :
  (forall payload, answers (Returns "") (VBool false) value (Interrupt payload)
                   = VBool false)
  /\ truthy (VBool false) = false
  /\ snd (fire env0 (hitl_of Entity) (answers (Returns "") (VBool false))
           state_with_packs)
     = Returns (<[accept_key Entity := VBool false]> state_with_packs,
                [rag_of Entity]).
Proof.
  assert (H1 : forall payload,
             answers (Returns "") (VBool false) value (Interrupt payload)
             = VBool false) by (intros payload; reflexivity).
  assert (H2 : truthy (VBool false) = false) by reflexivity.
  split; [exact H1|]. split; [exact H2|].
  pose proof (C6_reject_domain_gate Entity env0
                (answers (Returns "") (VBool false))
                (answers (Returns "entity text, second run") VNone)
                state_with_packs (VBool false) H1 H2) as H.
  cbv zeta in H. exact (proj1 H).
Defined.

Lemma C7_reject_final_witness :
  snd (fire env0 Synthesize (answers (Returns "first memo") VNone) state_with_packs)
  = Returns (<["credit_memo" := VStr "first memo"]> state_with_packs, [HITL_Final])
  /\ (forall payload, answers (Returns "") (VBool false) value (Interrupt payload)
                      = VBool false)
  /\ truthy (VBool false) = false
  /\ exists memo,
       snd (fire env0 Synthesize (answers (Raises (Exception "timeout")) VNone)
              (<["accept_synthesis" := VBool false]>
                 (<["credit_memo" := VStr "first memo"]> state_with_packs)))
       = Returns (<["credit_memo" := VStr memo]>
                    (<["accept_synthesis" := VBool false]>
                       (<["credit_memo" := VStr "first memo"]> state_with_packs)),
                  [HITL_Final]).
Proof.
  assert (H0 : snd (fire env0 Synthesize (answers (Returns "first memo") VNone)
                      state_with_packs)
               = Returns (<["credit_memo" := VStr "first memo"]> state_with_packs,
                          [HITL_Final])).
  { erewrite fire_synthesize; reflexivity. }
  assert (H1 : forall payload,
             answers (Returns "") (VBool false) value (Interrupt payload)
             = VBool false) by (intros payload; reflexivity).
  assert (H2 : truthy (VBool false) = false) by reflexivity.
  split; [exact H0|]. split; [exact H1|]. split; [exact H2|].
  destruct (C7_reject_final_reruns_synthesis env0
              (answers (Returns "first memo") VNone)
              (answers (Returns "") (VBool false))
              (answers (Raises (Exception "timeout")) VNone)
              state_with_packs _ _ (VBool false) H0 H1 H2)
    as (pp & ep & mp & H).
  cbv zeta in H. destruct H as (_ & _ & _ & _ & H & _).
  eexists. rewrite H. reflexivity.
Defined.

Lemma C8_ingest_witness :
  input_data "Acme Co" "" !! "borrower_id" = Some (VStr "Acme Co")
  /\ input_data "Acme Co" "" !! "sector" = Some (VStr "")
  /\ ingest_renewal_alert (input_data "Acme Co" "")
     = Ret (with_queries "Acme Co" "" (input_data "Acme Co" "")).
Proof.
  assert (H1 : input_data "Acme Co" "" !! "borrower_id" = Some (VStr "Acme Co"))
    by reflexivity.
  assert (H2 : input_data "Acme Co" "" !! "sector" = Some (VStr ""))
    by reflexivity.
  split; [exact H1|]. split; [exact H2|].
  pose proof (C8_ingest_total env0 (answers (Returns "") VNone)
                (input_data "Acme Co" "") "Acme Co" "" H1 H2) as H.
  cbv zeta in H. exact (proj1 H).
Defined.

Lemma C9_ingest_defaults_witness :
  (∅ : gmap string value) !! "borrower_id" = None
  /\ (∅ : gmap string value) !! "sector" = None
  /\ ingest_renewal_alert ∅
     = Ret (with_queries "TechManufacture Inc" "Advanced Manufacturing" ∅).
Proof.
  assert (H1 : (∅ : gmap string value) !! "borrower_id" = None) by reflexivity.
  assert (H2 : (∅ : gmap string value) !! "sector" = None) by reflexivity.
  split; [exact H1|]. split; [exact H2|].
  destruct (C9_ingest_defaults ∅) as (b & s & Hingest & Hb & Hs & _).
  rewrite Hingest, (Hb H1), (Hs H2). reflexivity.
Defined.

(** * Further properties of the nodes and of the graph *)

(** ** Synthesis and a missing pack *)

(** X1.  The prompt is built before the [try]: when a pack key is missing from
    the state, Synthesis raises [KeyError] for the first missing one (policy,
    then entity, then market) and never calls the generation collaborator;
    the failure is not turned into memo text.  Both versions of the node. *)
Theorem synthesize_missing_pack_raises (w : world) (state : gmap string value) :
  (state !! "policy_pack" = None ->
     run w (synthesize_recommendation state) = ([], Raises (KeyError "policy_pack"))
     /\ run w (H2ogpteNodes.synthesize_recommendation state)
        = ([], Raises (KeyError "policy_pack")))
  /\ (is_Some (state !! "policy_pack") -> state !! "entity_pack" = None ->
     run w (synthesize_recommendation state) = ([], Raises (KeyError "entity_pack"))
     /\ run w (H2ogpteNodes.synthesize_recommendation state)
        = ([], Raises (KeyError "entity_pack")))
  /\ (is_Some (state !! "policy_pack") -> is_Some (state !! "entity_pack") ->
     state !! "market_pack" = None ->
     run w (synthesize_recommendation state) = ([], Raises (KeyError "market_pack"))
     /\ run w (H2ogpteNodes.synthesize_recommendation state)
        = ([], Raises (KeyError "market_pack")))
  /\ ((exists e, snd (run w (synthesize_recommendation state)) = Raises e)
      <-> state !! "policy_pack" = None \/ state !! "entity_pack" = None
          \/ state !! "market_pack" = None).
Proof.
  unfold synthesize_recommendation, H2ogpteNodes.synthesize_recommendation, subscript.
  split; [|split; [|split]].
  - intros ->. split; reflexivity.
  - intros [pp ->] ->. split; reflexivity.
  - intros [pp ->] [ep ->] ->. split; reflexivity.
  - destruct (state !! "policy_pack") as [pp|]; simpl;
      [|split; [auto|intros _; eexists; reflexivity]].
    destruct (state !! "entity_pack") as [ep|]; simpl;
      [|split; [auto|intros _; eexists; reflexivity]].
    destruct (state !! "market_pack") as [mp|]; simpl;
      [|split; [auto|intros _; eexists; reflexivity]].
    split.
    + intros [e He].
      destruct (w _ (QueryLlm (synthesis_prompt pp ep mp))); discriminate He.
    + intros [H|[H|H]]; discriminate H.
Qed.

Lemma synthesize_missing_pack_witness :
  (∅ : gmap string value) !! "policy_pack" = None
  /\ run (answers (Returns "memo") VNone) (synthesize_recommendation ∅)
     = ([], Raises (KeyError "policy_pack")).
Proof.
  assert (H : (∅ : gmap string value) !! "policy_pack" = None) by reflexivity.
  split; [exact H|].
  exact (proj1 (proj1 (synthesize_missing_pack_raises
                         (answers (Returns "memo") VNone) ∅) H)).
Defined.

(** ** A retrieval stage and its collection identifier *)

(** X2.  For each domain, the retrieval stage raises exactly when its collection
    identifier is unset or set to the empty string; it then raises
    [ValueError] with the message naming that variable, and has made no
    call. *)
Theorem rag_raises_iff_identifier_missing (d : domain) (env : gmap string string)
    (w : world) (state : gmap string value) :
  ((exists e, snd (run w (node_fn env (rag_of d) state)) = Raises e)
   <-> env !! env_key d = None \/ env !! env_key d = Some "")
  /\ (env !! env_key d = None \/ env !! env_key d = Some "" ->
      run w (node_fn env (rag_of d) state)
      = ([], Raises (ValueError
                       (env_key d +:+ " environment variable not set. "
                        +:+ "Please check the README for setup instructions and ensure your .env file is configured correctly.")))).
Proof.
  assert (Hmiss : env_missing env (env_key d) = true
                  <-> env !! env_key d = None \/ env !! env_key d = Some "").
  { unfold env_missing. destruct (env !! env_key d) as [s|].
    - rewrite String.eqb_eq. split.
      + intros ->. right. reflexivity.
      + intros [H|H]; [discriminate H|injection H as ->; reflexivity].
    - split; auto. }
  split.
  - rewrite <- Hmiss. destruct (env_missing env (env_key d)) eqn:Hm.
    + rewrite (run_rag_missing d env w state Hm). split; eauto.
    + apply env_missing_false in Hm as (cid & Henv & Hcid).
      rewrite (run_rag_present d env w state cid Henv Hcid). simpl.
      split; [intros [e He]; discriminate He|discriminate].
  - intros H. apply Hmiss in H. exact (run_rag_missing d env w state H).
Qed.

Lemma rag_identifier_missing_witness :
  (<["MARKET_COLLECTION_ID" := ""]> env0) !! env_key Market = Some ""
  /\ snd (run (answers (Returns "text") VNone)
            (node_fn (<["MARKET_COLLECTION_ID" := ""]> env0) (rag_of Market)
                     state_with_packs))
     = Raises (ValueError (not_set_message "MARKET_COLLECTION_ID")).
Proof.
  assert (H : (<["MARKET_COLLECTION_ID" := ""]> env0) !! env_key Market = Some "")
    by reflexivity.
  split; [exact H|].
  rewrite (proj2 (rag_raises_iff_identifier_missing Market
                    (<["MARKET_COLLECTION_ID" := ""]> env0)
                    (answers (Returns "text") VNone) state_with_packs)
             (or_intror H)).
  reflexivity.
Defined.

(** ** The review gates *)

(** X3.  Each of the four gates returns whatever the state and the decision are:
    it interrupts once, with a payload of two keys, the artifact (the text
    'Not available' when the state has none) and the message; it calls no
    collaborator; and it returns the one-key dict holding the resume value
    as it came, not coerced to a boolean. *)
Theorem gate_payload_and_update (env : gmap string string) (w : world)
    (state : gmap string value) :
  (forall d, exists msg,
     let payload : gmap string value :=
       <[pack_key d := dict_get state (pack_key d) (VStr "Not available")]>
         (<["message" := VStr msg]> ∅) in
     run w (node_fn env (hitl_of d) state)
     = ([EvInterrupt payload],
        Returns (<[accept_key d := w value (Interrupt payload)]> ∅))
     /\ (state !! pack_key d = None ->
           payload !! pack_key d = Some (VStr "Not available")))
  /\ (exists msg,
     let payload : gmap string value :=
       <["credit_memo" := dict_get state "credit_memo" (VStr "Not available")]>
         (<["message" := VStr msg]> ∅) in
     run w (node_fn env HITL_Final state)
     = ([EvInterrupt payload],
        Returns (<["accept_synthesis" := w value (Interrupt payload)]> ∅))
     /\ (state !! "credit_memo" = None ->
           payload !! "credit_memo" = Some (VStr "Not available"))).
Proof.
  split.
  - intros d. destruct d; eexists; (split; [reflexivity|]);
      intros H; unfold dict_get; rewrite H; apply lookup_insert_eq.
  - eexists. split; [reflexivity|].
    intros H; unfold dict_get; rewrite H; apply lookup_insert_eq.
Qed.

Lemma gate_payload_witness :
  (∅ : gmap string value) !! pack_key Policy = None
  /\ exists payload,
       fst (run (answers (Returns "") (VStr "yes")) (node_fn env0 (hitl_of Policy) ∅))
       = [EvInterrupt payload]
       /\ payload !! pack_key Policy = Some (VStr "Not available").
Proof.
  assert (H : (∅ : gmap string value) !! pack_key Policy = None) by reflexivity.
  split; [exact H|].
  destruct (proj1 (gate_payload_and_update env0 (answers (Returns "") (VStr "yes")) ∅)
              Policy) as (msg & Hrun & Hpayload).
  eexists. rewrite Hrun. split; [reflexivity|]. exact (Hpayload H).
Defined.

(** ** What a node may change *)

Lemma fire_returns_inv env n (w : world) state state' next :
  snd (fire env n w state) = Returns (state', next) ->
  exists update,
    snd (run w (node_fn env n state)) = Returns update
    /\ state' = update ∪ state /\ next = successors n state'.
Proof.
  unfold fire. simpl.
  destruct (snd (run w (node_fn env n state))) as [update|e]; [|discriminate].
  intros H. injection H as <- <-. eauto.
Qed.

Lemma run_hitl d env (w : world) state :
  exists decision,
    snd (run w (node_fn env (hitl_of d) state))
    = Returns (<[accept_key d := decision]> ∅).
Proof. destruct d; eexists; reflexivity. Qed.

Lemma run_returns_update env n (w : world) state update :
  snd (run w (node_fn env n state)) = Returns update ->
  forall k, k ∉ writes n -> (update ∪ state) !! k = state !! k.
Proof.
  intros Hrun k Hk.
  destruct n; simpl node_fn in Hrun; simpl writes in Hk.
  - (* Ingest *)
    rewrite ingest_unfold in Hrun. simpl in Hrun. injection Hrun as <-.
    rewrite lookup_union.
    rewrite with_queries_other.
    + destruct (state !! k); reflexivity.
    + intros ->. apply Hk. rewrite list_elem_of_In. simpl. auto.
    + intros ->. apply Hk. rewrite list_elem_of_In. simpl. auto.
    + intros ->. apply Hk. rewrite list_elem_of_In. simpl. auto.
  - (* RAG_Policy *)
    destruct (env_missing env (env_key Policy)) eqn:Hm.
    + change (rag_policy env state) with (node_fn env (rag_of Policy) state) in Hrun.
      rewrite (run_rag_missing Policy env w state Hm) in Hrun. discriminate Hrun.
    + apply env_missing_false in Hm as (cid & Henv & Hcid).
      change (rag_policy env state) with (node_fn env (rag_of Policy) state) in Hrun.
      rewrite (run_rag_present Policy env w state cid Henv Hcid) in Hrun.
      injection Hrun as <-. apply lookup_union_r.
      apply retrieval_update_other; simpl; intros ->; apply Hk;
        rewrite list_elem_of_In; simpl; auto.
  - (* RAG_Entity *)
    destruct (env_missing env (env_key Entity)) eqn:Hm.
    + change (rag_entity env state) with (node_fn env (rag_of Entity) state) in Hrun.
      rewrite (run_rag_missing Entity env w state Hm) in Hrun. discriminate Hrun.
    + apply env_missing_false in Hm as (cid & Henv & Hcid).
      change (rag_entity env state) with (node_fn env (rag_of Entity) state) in Hrun.
      rewrite (run_rag_present Entity env w state cid Henv Hcid) in Hrun.
      injection Hrun as <-. apply lookup_union_r.
      apply retrieval_update_other; simpl; intros ->; apply Hk;
        rewrite list_elem_of_In; simpl; auto.
  - (* RAG_Market *)
    destruct (env_missing env (env_key Market)) eqn:Hm.
    + change (rag_market env state) with (node_fn env (rag_of Market) state) in Hrun.
      rewrite (run_rag_missing Market env w state Hm) in Hrun. discriminate Hrun.
    + apply env_missing_false in Hm as (cid & Henv & Hcid).
      change (rag_market env state) with (node_fn env (rag_of Market) state) in Hrun.
      rewrite (run_rag_present Market env w state cid Henv Hcid) in Hrun.
      injection Hrun as <-. apply lookup_union_r.
      apply retrieval_update_other; simpl; intros ->; apply Hk;
        rewrite list_elem_of_In; simpl; auto.
  - (* HITL_Policy *)
    simpl in Hrun. injection Hrun as <-. apply lookup_union_r.
    apply lookup_insert_None. split; [apply lookup_empty|].
    intros <-. apply Hk. apply list_elem_of_here.
  - simpl in Hrun. injection Hrun as <-. apply lookup_union_r.
    apply lookup_insert_None. split; [apply lookup_empty|].
    intros <-. apply Hk. apply list_elem_of_here.
  - simpl in Hrun. injection Hrun as <-. apply lookup_union_r.
    apply lookup_insert_None. split; [apply lookup_empty|].
    intros <-. apply Hk. apply list_elem_of_here.
  - (* Synthesize *)
    unfold synthesize_recommendation, subscript in Hrun.
    destruct (state !! "policy_pack") as [pp|]; [|discriminate Hrun].
    destruct (state !! "entity_pack") as [ep|]; [|discriminate Hrun].
    destruct (state !! "market_pack") as [mp|]; [|discriminate Hrun].
    simpl in Hrun.
    assert (Hne : "credit_memo" <> k).
    { intros <-. apply Hk. apply list_elem_of_here. }
    destruct (w _ (QueryLlm (synthesis_prompt pp ep mp))); simpl in Hrun;
      injection Hrun as <-; rewrite update_whole_merge;
      apply lookup_insert_ne; exact Hne.
  - (* HITL_Final *)
    simpl in Hrun. injection Hrun as <-. apply lookup_union_r.
    apply lookup_insert_None. split; [apply lookup_empty|].
    intros <-. apply Hk. apply list_elem_of_here.
  - (* END *)
    simpl in Hrun. injection Hrun as <-. rewrite (left_id_L ∅ (∪)). reflexivity.
Qed.

Lemma run_returns_keeps_keys env n (w : world) state update k :
  snd (run w (node_fn env n state)) = Returns update ->
  is_Some (state !! k) -> is_Some ((update ∪ state) !! k).
Proof.
  intros _ [v Hv]. rewrite lookup_union. rewrite Hv.
  destruct (update !! k); eexists; reflexivity.
Qed.

(** X4.  Whatever the outside answers, a node that returns changes only the keys
    listed for it and removes none; and each artifact or query key is listed
    for exactly one node, each domain flag for the domain's retrieval stage
    and gate only. *)
Theorem node_changes_only_its_keys (env : gmap string string) (n : node)
    (w : world) (state state' : gmap string value) (next : list node) :
  snd (fire env n w state) = Returns (state', next) ->
  (forall k, k ∉ writes n -> state' !! k = state !! k)
  /\ (forall k, is_Some (state !! k) -> is_Some (state' !! k))
  /\ (forall d m, pack_key d ∈ writes m <-> m = rag_of d)
  /\ (forall d m, accept_key d ∈ writes m <-> m = rag_of d \/ m = hitl_of d)
  /\ (forall m, "credit_memo" ∈ writes m <-> m = Synthesize)
  /\ (forall m, "accept_synthesis" ∈ writes m <-> m = HITL_Final)
  /\ (forall d m, query_key d ∈ writes m <-> m = Ingest).
Proof.
  intros Hfire.
  apply fire_returns_inv in Hfire as (update & Hrun & -> & _).
  split; [exact (run_returns_update env n w state update Hrun)|].
  split; [intros k; exact (run_returns_keeps_keys env n w state update k Hrun)|].
  repeat split;
    try (destruct d); destruct m; simpl;
    rewrite ?list_elem_of_In; simpl;
    first [ intros [H|[H|[H|H]]]; first [discriminate H | contradiction | reflexivity | (left; reflexivity) | (right; reflexivity)]
          | intros [H|[H|H]]; first [discriminate H | contradiction | reflexivity | (left; reflexivity) | (right; reflexivity)]
          | intros [H|H]; first [discriminate H | contradiction | reflexivity | (left; reflexivity) | (right; reflexivity)]
          | intros H; first [discriminate H | contradiction | reflexivity | (left; reflexivity) | (right; reflexivity)]
          | intros; auto 6 ].
Qed.

Lemma node_changes_only_its_keys_witness :
  snd (fire env0 RAG_Entity (answers (Returns "entity text") VNone) state_with_packs)
  = Returns (retrieval_update Entity (Returns "entity text") ∪ state_with_packs,
             [HITL_Entity])
  /\ (retrieval_update Entity (Returns "entity text") ∪ state_with_packs)
       !! "policy_pack"
     = state_with_packs !! "policy_pack".
Proof.
  assert (H : snd (fire env0 RAG_Entity (answers (Returns "entity text") VNone)
                     state_with_packs)
              = Returns (retrieval_update Entity (Returns "entity text")
                         ∪ state_with_packs, [HITL_Entity])).
  { change RAG_Entity with (rag_of Entity).
    erewrite fire_rag_present; [reflexivity|reflexivity|discriminate]. }
  split; [exact H|].
  apply (proj1 (node_changes_only_its_keys env0 RAG_Entity _ _ _ _ H)).
  rewrite list_elem_of_In. simpl. intros [E|[E|[]]]; discriminate E.
Defined.

(** ** Facts about the declared edges *)

Lemma successors_eq n state :
  successors n state
  = match n with
    | Ingest => [RAG_Policy; RAG_Entity; RAG_Market]
    | RAG_Policy => [HITL_Policy]
    | RAG_Entity => [HITL_Entity]
    | RAG_Market => [HITL_Market]
    | HITL_Policy => [route_after_policy state]
    | HITL_Entity => [route_after_entity state]
    | HITL_Market => [route_after_market state]
    | Synthesize => [HITL_Final]
    | HITL_Final => [route_after_final state]
    | END => []
    end.
Proof. destruct n; reflexivity. Qed.

Ltac split_routes :=
  unfold route_after_policy, route_after_entity, route_after_market,
    route_after_final;
  repeat match goal with |- context [if ?b then _ else _] => destruct b end.

Lemma successors_hitl_inv d n state : hitl_of d ∈ successors n state -> n = rag_of d.
Proof.
  rewrite successors_eq. destruct n; split_routes;
    rewrite list_elem_of_In; simpl; destruct d; simpl;
    intros H; repeat (destruct H as [H|H]; try discriminate H);
    try contradiction; reflexivity.
Qed.

Lemma successors_no_Ingest n state : Ingest ∉ successors n state.
Proof.
  rewrite successors_eq. destruct n; split_routes;
    rewrite list_elem_of_In; simpl;
    intros H; repeat (destruct H as [H|H]; try discriminate H); contradiction.
Qed.

Lemma successors_NoDup n state : NoDup (successors n state).
Proof.
  rewrite successors_eq.
  destruct n; try apply NoDup_singleton; try apply NoDup_nil_2.
  repeat (apply NoDup_cons_2; [rewrite list_elem_of_In; simpl; intuition discriminate|]).
  apply NoDup_nil_2.
Qed.

Lemma list_filter_NoDup {A : Type} (f : A -> bool) (l : list A) :
  NoDup l -> NoDup (List.filter f l).
Proof.
  induction 1 as [|x l Hx Hl IH]; simpl; [apply NoDup_nil_2|].
  destruct (f x); [|exact IH].
  apply NoDup_cons_2; [|exact IH].
  rewrite list_elem_of_In, filter_In, <- list_elem_of_In. intros [Hin _].
  exact (Hx Hin).
Qed.

Lemma trigger_NoDup pending next :
  NoDup pending -> NoDup next -> NoDup (trigger pending next).
Proof.
  intros Hp Hn. unfold trigger. apply NoDup_app. split; [exact Hp|]. split.
  - intros x Hx. rewrite list_elem_of_In, filter_In.
    rewrite andb_true_iff, negb_true_iff, bool_decide_eq_false.
    intros (_ & _ & Hnot). exact (Hnot Hx).
  - apply list_filter_NoDup. exact Hn.
Qed.

Lemma delete_NoDup {A : Type} (l : list A) (i : nat) : NoDup l -> NoDup (delete i l).
Proof. intros Hl. eapply sublist_NoDup; [exact Hl|apply sublist_delete]. Qed.

Lemma NoDup_delete_not_elem {A : Type} (l : list A) (i : nat) (x : A) :
  NoDup l -> l !! i = Some x -> x ∉ delete i l.
Proof.
  intros Hl Hi. rewrite (delete_Permutation l i x Hi) in Hl.
  apply NoDup_cons in Hl as [Hx _]. exact Hx.
Qed.

Lemma reachable_NoDup env state0 c : reachable env state0 c -> NoDup (active c).
Proof.
  induction 1 as [|c [n w] c' Hc IH Hstep].
  - apply NoDup_singleton.
  - apply step_inv in Hstep as (_ & i & Hi & [(u & _ & ->)|(e & _ & ->)]); simpl.
    + apply trigger_NoDup; [apply delete_NoDup; exact IH|apply successors_NoDup].
    + apply NoDup_nil_2.
Qed.

Lemma input_key_not_written n k :
  k = "borrower_id" \/ k = "sector" -> k ∉ writes n.
Proof.
  intros [-> | ->]; destruct n; simpl; rewrite list_elem_of_In; simpl;
    intuition discriminate.
Qed.

Lemma query_key_writes n k : k ∈ writes Ingest -> n <> Ingest -> k ∉ writes n.
Proof.
  simpl. rewrite !list_elem_of_In. simpl.
  intros [<-|[<-|[<-|[]]]] Hn; destruct n; simpl;
    try (intuition discriminate); contradiction.
Qed.

(** ** The inputs and the queries along a run *)

(** X5.  Along any run, [borrower_id] and [sector] keep the value (or the
    absence) they had in the input; and once Ingest has run it is never
    triggered again and the three query fields stay what Ingest derived from
    the input, through every retry and every synthesis. *)
Theorem run_keeps_inputs_and_queries (env : gmap string string)
    (state0 : gmap string value) (c : config) :
  reachable env state0 c ->
  st c !! "borrower_id" = state0 !! "borrower_id"
  /\ st c !! "sector" = state0 !! "sector"
  /\ (c = init_config state0
      \/ ((Ingest ∉ active c)
          /\ forall k, k ∈ writes Ingest ->
               st c !! k
               = (with_queries
                    (py_str (dict_get state0 "borrower_id" (VStr "TechManufacture Inc")))
                    (py_str (dict_get state0 "sector" (VStr "Advanced Manufacturing")))
                    state0) !! k)).
Proof.
  induction 1 as [|c [n w] c' Hc (IHb & IHs & IH) Hstep].
  - simpl. auto.
  - apply step_inv in Hstep as (_ & i & Hi & [(u & Hrun & ->)|(e & Hrun & ->)]); simpl.
    + split; [|split].
      * rewrite <- IHb. apply (run_returns_update env n w (st c) u Hrun).
        apply input_key_not_written. auto.
      * rewrite <- IHs. apply (run_returns_update env n w (st c) u Hrun).
        apply input_key_not_written. auto.
      * right. destruct IH as [->|[Hno IH]].
        -- simpl in Hi. destruct i as [|i]; [|discriminate Hi].
           injection Hi as <-. simpl node_fn in Hrun. simpl st in *.
           rewrite ingest_unfold in Hrun. simpl in Hrun. injection Hrun as <-.
           split.
           ++ rewrite elem_of_trigger. intros [Hin|[Hin _]].
              ** exact (not_elem_of_nil _ Hin).
              ** exact (successors_no_Ingest _ _ Hin).
           ++ intros k Hk. apply lookup_union_l'.
              revert Hk. rewrite list_elem_of_In. simpl.
              unfold with_queries.
              intros [<-|[<-|[<-|[]]]];
                rewrite ?lookup_insert_eq;
                rewrite ?lookup_insert_ne by discriminate;
                rewrite ?lookup_insert_eq; eauto.
        -- assert (Hn : n <> Ingest).
           { intros ->. apply Hno. eapply list_elem_of_lookup_2. exact Hi. }
           split.
           ++ rewrite elem_of_trigger. intros [Hin|[Hin _]].
              ** apply Hno. eapply list_elem_of_delete_inv. exact Hin.
              ** exact (successors_no_Ingest _ _ Hin).
           ++ intros k Hk. rewrite <- (IH k Hk).
              apply (run_returns_update env n w (st c) u Hrun).
              apply query_key_writes; assumption.
    + split; [exact IHb|]. split; [exact IHs|]. right.
      destruct IH as [->|[Hno IH]].
      * simpl in Hi. destruct i as [|i]; [|discriminate Hi].
        injection Hi as <-. simpl in Hrun. discriminate Hrun.
      * split; [apply not_elem_of_nil|exact IH].
Qed.

Lemma run_keeps_inputs_witness :
  exists c,
    reachable env0 (input_data "Acme Co" "Retail") c
    /\ st c !! "borrower_id" = input_data "Acme Co" "Retail" !! "borrower_id".
Proof.
  destruct (run_schedule env0 (init_config (input_data "Acme Co" "Retail"))
              schedule_entity_rejected) as [c|] eqn:Hc;
    [|vm_compute in Hc; discriminate Hc].
  assert (Hreach : reachable env0 (input_data "Acme Co" "Retail") c).
  { eapply run_schedule_reachable; [apply reachable_init|exact Hc]. }
  exists c. split; [exact Hreach|].
  exact (proj1 (run_keeps_inputs_and_queries env0 _ c Hreach)).
Defined.

(** ** A pending gate reviews a fresh artifact *)

Lemma accept_key_writes_inv d n :
  accept_key d ∈ writes n -> n = rag_of d \/ n = hitl_of d.
Proof.
  destruct d, n; simpl; rewrite list_elem_of_In; simpl;
    intros H; repeat (destruct H as [H|H]; try discriminate H);
    try contradiction; auto.
Qed.

Lemma pack_key_writes_inv d n : pack_key d ∈ writes n -> n = rag_of d.
Proof.
  destruct d, n; simpl; rewrite list_elem_of_In; simpl;
    intros H; repeat (destruct H as [H|H]; try discriminate H);
    try contradiction; auto.
Qed.

Lemma rag_returns_update d env (w : world) state update :
  snd (run w (node_fn env (rag_of d) state)) = Returns update ->
  exists r, update = retrieval_update d r.
Proof.
  destruct (env_missing env (env_key d)) eqn:Hm.
  - rewrite (run_rag_missing d env w state Hm). discriminate.
  - apply env_missing_false in Hm as (cid & Henv & Hcid).
    rewrite (run_rag_present d env w state cid Henv Hcid). simpl.
    intros H. injection H as <-. eauto.
Qed.

Lemma retrieval_update_pack d r :
  exists text, retrieval_update d r !! pack_key d = Some (VStr text).
Proof. destruct r; simpl; rewrite lookup_insert_eq; eauto. Qed.

(** The gate's artifact and flag after the step that ran [n], when the gate
    of [d] is not the node that ran. *)
Lemma gate_fields_after_step d env n (w : world) state update :
  snd (run w (node_fn env n state)) = Returns update ->
  n <> hitl_of d ->
  (n = rag_of d
   \/ (state !! accept_key d = Some (VBool false)
       /\ exists text, state !! pack_key d = Some (VStr text))) ->
  (update ∪ state) !! accept_key d = Some (VBool false)
  /\ exists text, (update ∪ state) !! pack_key d = Some (VStr text).
Proof.
  intros Hrun Hng Hcases.
  destruct (decide (n = rag_of d)) as [->|Hnr].
  - apply rag_returns_update in Hrun as [r ->]. split.
    + apply lookup_union_Some_l. apply retrieval_update_accept.
    + destruct (retrieval_update_pack d r) as [text Ht].
      exists text. apply lookup_union_Some_l. exact Ht.
  - destruct Hcases as [?|[Ha [text Hp]]]; [contradiction|].
    split.
    + rewrite <- Ha. apply (run_returns_update env n w state update Hrun).
      intros Hin. apply accept_key_writes_inv in Hin as [?|?]; contradiction.
    + exists text. rewrite <- Hp.
      apply (run_returns_update env n w state update Hrun).
      intros Hin. apply pack_key_writes_inv in Hin. contradiction.
Qed.

(** X6.  Along any run, whenever the review gate of a domain is pending, that
    domain's acceptance flag is [False] and its pack holds a text: the gate
    is only ever triggered by the domain's retrieval stage, and nothing that
    runs while the gate waits touches either field. *)
Theorem pending_gate_reviews_fresh_artifact (env : gmap string string)
    (state0 : gmap string value) (c : config) (d : domain) :
  reachable env state0 c ->
  hitl_of d ∈ active c ->
  st c !! accept_key d = Some (VBool false)
  /\ (exists text, st c !! pack_key d = Some (VStr text))
  /\ should_synthesize (st c) = false.
Proof.
  intros Hreach Hin.
  assert (Hmain : st c !! accept_key d = Some (VBool false)
                  /\ exists text, st c !! pack_key d = Some (VStr text)).
  { revert Hin. induction Hreach as [|c [n w] c' Hc IH Hstep].
    - simpl. unfold entry_point. rewrite list_elem_of_In. simpl.
      intros [H|[]]. destruct d; discriminate H.
    - pose proof (reachable_NoDup _ _ _ Hc) as Hnd.
      apply step_inv in Hstep as (_ & i & Hi & [(u & Hrun & ->)|(e & _ & ->)]);
        simpl; [|intros H; destruct (not_elem_of_nil _ H)].
      rewrite elem_of_trigger. intros [Hin|[Hin _]].
      + assert (Hng : n <> hitl_of d).
        { intros ->. exact (NoDup_delete_not_elem _ _ _ Hnd Hi Hin). }
        apply (gate_fields_after_step d env n w (st c) u Hrun Hng).
        right. apply IH. eapply list_elem_of_delete_inv. exact Hin.
      + apply successors_hitl_inv in Hin as ->.
        apply (gate_fields_after_step d env (rag_of d) w (st c) u Hrun).
        * destruct d; discriminate.
        * left. reflexivity. }
  destruct Hmain as [Ha Hp]. split; [exact Ha|]. split; [exact Hp|].
  unfold should_synthesize, dict_get.
  destruct d; simpl in Ha; rewrite Ha; simpl;
    rewrite ?andb_false_r; reflexivity.
Qed.

Lemma pending_gate_witness :
  exists c,
    reachable env0 (input_data "Acme Co" "Retail") c
    /\ hitl_of Market ∈ active c
    /\ st c !! accept_key Market = Some (VBool false).
Proof.
  destruct (run_schedule env0 (init_config (input_data "Acme Co" "Retail"))
              (take 5 schedule_entity_rejected)) as [c|] eqn:Hc;
    [|vm_compute in Hc; discriminate Hc].
  assert (Hreach : reachable env0 (input_data "Acme Co" "Retail") c).
  { eapply run_schedule_reachable; [apply reachable_init|exact Hc]. }
  assert (Hin : hitl_of Market ∈ active c).
  { vm_compute in Hc. injection Hc as <-. simpl.
    rewrite list_elem_of_In. simpl. auto. }
  exists c. split; [exact Hreach|]. split; [exact Hin|].
  exact (proj1 (pending_gate_reviews_fresh_artifact env0 _ c Market Hreach Hin)).
Defined.

(** ** Why a run can abort *)





(** ** Which node makes which call *)

Lemma node_events_scoped env n (w : world) state ev :
  ev ∈ fst (run w (node_fn env n state)) ->
  match ev with
  | EvRag q cid =>
      exists d, n = rag_of d /\ env !! env_key d = Some cid /\ cid <> ""
                /\ state !! query_key d = Some q
  | EvLlm prompt =>
      n = Synthesize
      /\ exists pp ep mp,
           state !! "policy_pack" = Some pp /\ state !! "entity_pack" = Some ep
           /\ state !! "market_pack" = Some mp
           /\ prompt = synthesis_prompt pp ep mp
  | EvInterrupt payload => n = HITL_Final \/ exists d, n = hitl_of d
  end.
Proof.
  assert (Hrag : forall d,
            ev ∈ fst (run w (node_fn env (rag_of d) state)) ->
            match ev with
            | EvRag q cid =>
                exists d', rag_of d = rag_of d' /\ env !! env_key d' = Some cid
                           /\ cid <> "" /\ state !! query_key d' = Some q
            | _ => False
            end).
  { intros d. destruct (env_missing env (env_key d)) eqn:Hm.
    - rewrite (run_rag_missing d env w state Hm). simpl.
      intros H. destruct (not_elem_of_nil _ H).
    - apply env_missing_false in Hm as (cid & Henv & Hcid).
      rewrite (run_rag_present d env w state cid Henv Hcid). simpl.
      unfold retrieval_calls. destruct (state !! query_key d) as [q|] eqn:Hq.
      + intros H. apply list_elem_of_singleton in H as ->. exists d. auto.
      + intros H. destruct (not_elem_of_nil _ H). }
  destruct n; simpl node_fn.
  - rewrite ingest_unfold. simpl. intros H. destruct (not_elem_of_nil _ H).
  - intros H. apply (Hrag Policy) in H. destruct ev; [exact H|contradiction..].
  - intros H. apply (Hrag Entity) in H. destruct ev; [exact H|contradiction..].
  - intros H. apply (Hrag Market) in H. destruct ev; [exact H|contradiction..].
  - simpl. intros H. apply list_elem_of_singleton in H as ->. right. exists Policy. reflexivity.
  - simpl. intros H. apply list_elem_of_singleton in H as ->. right. exists Entity. reflexivity.
  - simpl. intros H. apply list_elem_of_singleton in H as ->. right. exists Market. reflexivity.
  - destruct (state !! "policy_pack") as [pp|] eqn:Hpp;
      [|unfold synthesize_recommendation, subscript; rewrite Hpp; simpl;
        intros H; destruct (not_elem_of_nil _ H)].
    destruct (state !! "entity_pack") as [ep|] eqn:Hep;
      [|unfold synthesize_recommendation, subscript; rewrite Hpp, Hep; simpl;
        intros H; destruct (not_elem_of_nil _ H)].
    destruct (state !! "market_pack") as [mp|] eqn:Hmp;
      [|unfold synthesize_recommendation, subscript; rewrite Hpp, Hep, Hmp; simpl;
        intros H; destruct (not_elem_of_nil _ H)].
    rewrite (run_synthesize w state pp ep mp Hpp Hep Hmp). simpl.
    intros H. apply list_elem_of_singleton in H as ->.
    split; [reflexivity|]. exists pp, ep, mp. auto.
  - simpl. intros H. apply list_elem_of_singleton in H as ->. left. reflexivity.
  - simpl. intros H. destruct (not_elem_of_nil _ H).
Qed.

(** X8.  Every call in the log of a run was made by the node it belongs to: a
    retrieval call comes from the retrieval stage of some domain and carries
    that domain's own collection identifier, which is set and not empty (no
    stage ever queries another domain's collection); a generation call comes
    from Synthesis; an interrupt comes from one of the four gates. *)
Theorem logged_calls_are_scoped (env : gmap string string)
    (state0 : gmap string value) (c : config) (n : node) (ev : event) :
  reachable env state0 c ->
  (n, ev) ∈ log c ->
  match ev with
  | EvRag q cid => exists d, n = rag_of d /\ env !! env_key d = Some cid /\ cid <> ""
  | EvLlm prompt => n = Synthesize
  | EvInterrupt payload => n = HITL_Final \/ exists d, n = hitl_of d
  end.
Proof.
  induction 1 as [|c [m w] c' Hc IH Hstep].
  - intros H. destruct (not_elem_of_nil _ H).
  - assert (Hlog : log c' = log c ++ map (pair m) (fst (run w (node_fn env m (st c))))).
    { apply step_inv in Hstep as (_ & i & _ & [(u & _ & ->)|(e & _ & ->)]);
        reflexivity. }
    rewrite Hlog, elem_of_app. intros [Hin|Hin]; [exact (IH Hin)|].
    apply list_elem_of_fmap in Hin as (ev' & Heq & Hin).
    injection Heq as -> ->.
    apply node_events_scoped in Hin. destruct ev'.
    + destruct Hin as (d & Hn & Henv & Hcid & _). exists d. auto.
    + exact (proj1 Hin).
    + exact Hin.
Qed.

Lemma logged_calls_witness :
  exists c q,
    reachable env_without_policy (input_data "Acme Co" "Retail") c
    /\ (RAG_Entity, EvRag q "entity-collection") ∈ log c
    /\ exists d, RAG_Entity = rag_of d
                 /\ env_without_policy !! env_key d = Some "entity-collection".
Proof.
  destruct (run_schedule env_without_policy
              (init_config (input_data "Acme Co" "Retail"))
              schedule_entity_first) as [c|] eqn:Hc;
    [|vm_compute in Hc; discriminate Hc].
  assert (Hreach : reachable env_without_policy (input_data "Acme Co" "Retail") c).
  { eapply run_schedule_reachable; [apply reachable_init|exact Hc]. }
  assert (Hin : (RAG_Entity,
                 EvRag (VStr "Financial data, credit history, and risk profile for Acme Co")
                       "entity-collection") ∈ log c).
  { vm_compute in Hc. injection Hc as <-. simpl. apply list_elem_of_here. }
  exists c, (VStr "Financial data, credit history, and risk profile for Acme Co").
  split; [exact Hreach|]. split; [exact Hin|].
  destruct (logged_calls_are_scoped env_without_policy _ c _ _ Hreach Hin)
    as (d & Hd & Henv & _).
  exists d. auto.
Defined.

(** ** The run key separates borrowers *)

Lemma thread_id_inj b1 b2 : thread_id b1 = thread_id b2 -> b1 = b2.
Proof. unfold thread_id. simpl. intros H. injection H as H. exact H. Qed.

(** X9.  Two invocations of [run_credit_renewal] address the same checkpoint
    thread exactly when their borrower ids are equal: one borrower's run
    never lands on another borrower's thread. *)
Theorem run_key_separates_borrowers (b1 b2 sector1 sector2 : string) :
  (thread_id b1 = thread_id b2 <-> b1 = b2)
  /\ (snd (run_credit_renewal b1 sector1) = snd (run_credit_renewal b2 sector2)
      <-> b1 = b2).
Proof.
  split.
  - split; [apply thread_id_inj|intros ->; reflexivity].
  - split; [|intros ->; reflexivity].
    unfold run_credit_renewal. cbn [snd]. intros H.
    pose proof (f_equal (fun m : gmap string (gmap string string) =>
                           m !! "configurable") H) as H1.
    cbv beta in H1. rewrite !lookup_singleton_eq in H1.
    assert (H2 : ({[ "thread_id" := thread_id b1 ]} : gmap string string)
                 = {[ "thread_id" := thread_id b2 ]}) by congruence.
    pose proof (f_equal (fun m : gmap string string => m !! "thread_id") H2) as H3.
    cbv beta in H3. rewrite !lookup_singleton_eq in H3.
    apply thread_id_inj. congruence.
Qed.

Lemma run_key_separates_witness :
  thread_id "Acme Co" <> thread_id "Acme Corp".
Proof.
  intros H.
  pose proof (proj1 (proj1 (run_key_separates_borrowers "Acme Co" "Acme Corp" "" "")) H)
    as Heq.
  discriminate Heq.
Defined.

(** ** The join predicate and the three routings *)

(** X10.  [should_synthesize] holds exactly when each of the three domain
    routings would proceed to [Synthesize], that is when none of the three
    [should_rerun_*] predicates holds. *)
Theorem should_synthesize_iff_all_proceed (state : gmap string value) :
  (should_synthesize state = true <-> forall d, route_after d state = Synthesize)
  /\ should_synthesize state
     = negb (should_rerun_policy state || should_rerun_entity state
             || should_rerun_market state).
Proof.
  assert (Heq : should_synthesize state
                = negb (should_rerun_policy state || should_rerun_entity state
                        || should_rerun_market state)).
  { unfold should_synthesize, should_rerun_policy, should_rerun_entity,
      should_rerun_market. simpl.
    destruct (truthy (dict_get state "accept_policy" (VBool false)));
      destruct (truthy (dict_get state "accept_entity" (VBool false)));
      destruct (truthy (dict_get state "accept_market" (VBool false)));
      reflexivity. }
  split; [|exact Heq].
  rewrite Heq. split.
  - intros H d. destruct d; simpl;
      unfold route_after_policy, route_after_entity, route_after_market;
      destruct (should_rerun_policy state), (should_rerun_entity state),
        (should_rerun_market state); simpl in H; first [reflexivity|discriminate H].
  - intros H.
    pose proof (H Policy) as Hp. pose proof (H Entity) as He.
    pose proof (H Market) as Hm. simpl in Hp, He, Hm.
    unfold route_after_policy in Hp. unfold route_after_entity in He.
    unfold route_after_market in Hm.
    destruct (should_rerun_policy state); [discriminate Hp|].
    destruct (should_rerun_entity state); [discriminate He|].
    destruct (should_rerun_market state); [discriminate Hm|]. reflexivity.
Qed.

Lemma should_synthesize_witness :
  should_synthesize (input_data "Acme Co" "Retail") = false
  /\ ~ (forall d, route_after d (input_data "Acme Co" "Retail") = Synthesize).
Proof.
  assert (H : should_synthesize (input_data "Acme Co" "Retail") = false)
    by reflexivity.
  split; [exact H|]. intros Hall.
  apply (proj1 (should_synthesize_iff_all_proceed (input_data "Acme Co" "Retail")))
    in Hall.
  rewrite H in Hall. discriminate Hall.
Defined.

(** ** Ingest run again *)

Lemma with_queries_agree b s (st1 st2 : gmap string value) :
  (forall k, k ∉ writes Ingest -> st1 !! k = st2 !! k) ->
  with_queries b s st1 = with_queries b s st2.
Proof.
  intros Hagree. apply map_eq. intros k. unfold with_queries.
  destruct (decide (k = "market_query")) as [->|Hm];
    [rewrite !lookup_insert_eq; reflexivity|].
  rewrite !(lookup_insert_ne _ "market_query") by congruence.
  destruct (decide (k = "entity_query")) as [->|He];
    [rewrite !lookup_insert_eq; reflexivity|].
  rewrite !(lookup_insert_ne _ "entity_query") by congruence.
  destruct (decide (k = "policy_query")) as [->|Hp];
    [rewrite !lookup_insert_eq; reflexivity|].
  rewrite !(lookup_insert_ne _ "policy_query") by congruence.
  apply Hagree. simpl. rewrite list_elem_of_In. simpl. intuition congruence.
Qed.

(** X11.  Ingest overwrites the three query fields whatever they held: two states
    that differ only in those fields are ingested to the same state; in
    particular ingesting the result of Ingest again gives it back. *)
Theorem ingest_overwrites_queries (state1 state2 : gmap string value) :
  (forall k, k ∉ writes Ingest -> state1 !! k = state2 !! k) ->
  ingest_renewal_alert state1 = ingest_renewal_alert state2
  /\ (forall state', ingest_renewal_alert state1 = Ret state' ->
        ingest_renewal_alert state' = Ret state').
Proof.
  intros Hagree.
  assert (Hgen : forall st1 st2 : gmap string value,
            (forall k, k ∉ writes Ingest -> st1 !! k = st2 !! k) ->
            ingest_renewal_alert st1 = ingest_renewal_alert st2).
  { intros st1 st2 H. rewrite !ingest_unfold. unfold dict_get.
    rewrite (H "borrower_id"), (H "sector")
      by (apply input_key_not_written; auto).
    f_equal. apply with_queries_agree. exact H. }
  split; [exact (Hgen _ _ Hagree)|].
  intros state' Hret.
  transitivity (ingest_renewal_alert state1); [|exact Hret]. apply Hgen.
  intros k Hk. rewrite ingest_unfold in Hret. injection Hret as <-.
  simpl in Hk. rewrite list_elem_of_In in Hk. simpl in Hk.
  apply with_queries_other; intuition congruence.
Qed.

Lemma ingest_overwrites_witness :
  (forall k, k ∉ writes Ingest ->
     (<["policy_query" := VStr "stale"]> (input_data "Acme Co" "Retail")) !! k
     = input_data "Acme Co" "Retail" !! k)
  /\ ingest_renewal_alert (<["policy_query" := VStr "stale"]> (input_data "Acme Co" "Retail"))
     = ingest_renewal_alert (input_data "Acme Co" "Retail").
Proof.
  assert (H : forall k, k ∉ writes Ingest ->
     (<["policy_query" := VStr "stale"]> (input_data "Acme Co" "Retail")) !! k
     = input_data "Acme Co" "Retail" !! k).
  { intros k Hk. apply lookup_insert_ne. intros <-. apply Hk.
    apply list_elem_of_here. }
  split; [exact H|].
  exact (proj1 (ingest_overwrites_queries _ _ H)).
Defined.

(** * The bootstrap script *)

(** ** Rewriting the [.env] lines *)

Lemma prefix_cons c p a s :
  String.prefix (String c p) (String a s)
  = if ascii_dec c a then String.prefix p s else false.
Proof. reflexivity. Qed.

Lemma prefix_append p s : String.prefix p (p +:+ s) = true.
Proof.
  induction p as [|c p IH].
  - destruct s; reflexivity.
  - change (String.prefix (String c p) (String c (p +:+ s)) = true).
    rewrite prefix_cons. destruct (ascii_dec c c); [exact IH|contradiction].
Qed.

Lemma prefix_append2 p1 p2 s : String.prefix (p1 +:+ p2) (p1 +:+ p2 +:+ s) = true.
Proof.
  induction p1 as [|c p1 IH].
  - change (String.prefix p2 (p2 +:+ s) = true). apply prefix_append.
  - change (String.prefix (String c (p1 +:+ p2)) (String c (p1 +:+ p2 +:+ s)) = true).
    rewrite prefix_cons. destruct (ascii_dec c c); [exact IH|contradiction].
Qed.

Lemma env_prefix_exclusive d d' line :
  String.prefix (env_key d +:+ "=") line = true -> d <> d' ->
  String.prefix (env_key d' +:+ "=") line = false.
Proof.
  destruct line as [|a line]; [destruct d; discriminate|].
  destruct d, d'; intros H Hne; try contradiction;
    cbv [env_key String.append] in H |- *;
    rewrite prefix_cons in H |- *;
    match type of H with
    | context [ascii_dec ?x a] =>
        destruct (ascii_dec x a) as [<-|]; [|discriminate H]
    end;
    match goal with
    | |- context [ascii_dec ?x ?y] =>
        destruct (ascii_dec x y) as [E|]; [discriminate E|reflexivity]
    end.
Qed.

Lemma updated_line_match created d line :
  String.prefix (env_key d +:+ "=") line = true ->
  CreateCollections.updated_line created line
  = env_key d +:+ "="
    +:+ CreateCollections.dict_get created (title d +:+ " Collection") "" +:+ nl.
Proof.
  intros H.
  assert (Hothers : forall d', d <> d' ->
            String.prefix (env_key d' +:+ "=") line = false).
  { intros d' Hne. exact (env_prefix_exclusive d d' line H Hne). }
  unfold CreateCollections.updated_line.
  destruct d.
  - change (String.prefix "POLICY_COLLECTION_ID=" line = true) in H. rewrite H.
    reflexivity.
  - pose proof (Hothers Policy ltac:(discriminate)) as Hp.
    change (String.prefix "POLICY_COLLECTION_ID=" line = false) in Hp.
    change (String.prefix "ENTITY_COLLECTION_ID=" line = true) in H.
    rewrite Hp, H. reflexivity.
  - pose proof (Hothers Policy ltac:(discriminate)) as Hp.
    pose proof (Hothers Entity ltac:(discriminate)) as He.
    change (String.prefix "POLICY_COLLECTION_ID=" line = false) in Hp.
    change (String.prefix "ENTITY_COLLECTION_ID=" line = false) in He.
    change (String.prefix "MARKET_COLLECTION_ID=" line = true) in H.
    rewrite Hp, He, H. reflexivity.
Qed.

Lemma updated_line_other created line :
  (forall d, String.prefix (env_key d +:+ "=") line = false) ->
  CreateCollections.updated_line created line = line.
Proof.
  intros H. unfold CreateCollections.updated_line.
  pose proof (H Policy) as Hp. pose proof (H Entity) as He.
  pose proof (H Market) as Hm.
  change (String.prefix "POLICY_COLLECTION_ID=" line = false) in Hp.
  change (String.prefix "ENTITY_COLLECTION_ID=" line = false) in He.
  change (String.prefix "MARKET_COLLECTION_ID=" line = false) in Hm.
  rewrite Hp, He, Hm. reflexivity.
Qed.

Lemma env_prefix_cases line :
  (exists d, String.prefix (env_key d +:+ "=") line = true)
  \/ (forall d, String.prefix (env_key d +:+ "=") line = false).
Proof.
  destruct (String.prefix (env_key Policy +:+ "=") line) eqn:Hp; [left; eauto|].
  destruct (String.prefix (env_key Entity +:+ "=") line) eqn:He; [left; eauto|].
  destruct (String.prefix (env_key Market +:+ "=") line) eqn:Hm; [left; eauto|].
  right. intros d. destruct d; assumption.
Qed.

Lemma updated_line_prefix created d line :
  String.prefix (env_key d +:+ "=") (CreateCollections.updated_line created line)
  = String.prefix (env_key d +:+ "=") line.
Proof.
  destruct (env_prefix_cases line) as [[d' Hd']|Hnone].
  - rewrite (updated_line_match created d' line Hd').
    destruct (decide (d' = d)) as [->|Hne].
    + rewrite Hd'. apply prefix_append2.
    + rewrite (env_prefix_exclusive d' d line Hd' Hne).
      destruct d', d; try contradiction; reflexivity.
  - rewrite (updated_line_other created line Hnone). reflexivity.
Qed.

Lemma updated_line_idempotent created line :
  CreateCollections.updated_line created
    (CreateCollections.updated_line created line)
  = CreateCollections.updated_line created line.
Proof.
  destruct (env_prefix_cases line) as [[d Hd]|Hnone].
  - rewrite (updated_line_match created d line Hd).
    apply updated_line_match. apply prefix_append2.
  - rewrite (updated_line_other created line Hnone).
    apply updated_line_other. exact Hnone.
Qed.

(** X12.  The rewriting of the [.env] file keeps the number of lines and every
    line that does not start with one of the three [<X>_COLLECTION_ID=]
    prefixes, which are the variables the retrieval stages read; a line that
    starts with one becomes that prefix, the recorded identifier of the
    collection (nothing when none was recorded) and a line feed, whatever
    followed the prefix.  A variable is therefore neither added to nor
    dropped from the file, and rewriting twice is rewriting once. *)
Theorem updated_lines_rewrites_only_collection_ids
    (created : list (string * string)) (lines : list string) :
  length (CreateCollections.updated_lines created lines) = length lines
  /\ (forall i line, lines !! i = Some line ->
        CreateCollections.updated_lines created lines !! i
        = Some (CreateCollections.updated_line created line))
  /\ (forall d line, String.prefix (env_key d +:+ "=") line = true ->
        CreateCollections.updated_line created line
        = env_key d +:+ "="
          +:+ CreateCollections.dict_get created (title d +:+ " Collection") ""
          +:+ nl)
  /\ (forall line, (forall d, String.prefix (env_key d +:+ "=") line = false) ->
        CreateCollections.updated_line created line = line)
  /\ (forall d line,
        String.prefix (env_key d +:+ "=")
          (CreateCollections.updated_line created line)
        = String.prefix (env_key d +:+ "=") line)
  /\ CreateCollections.updated_lines created
       (CreateCollections.updated_lines created lines)
     = CreateCollections.updated_lines created lines.
Proof.
  unfold CreateCollections.updated_lines.
  split; [apply length_map|].
  split; [intros i line Hi; rewrite list_lookup_fmap, Hi; reflexivity|].
  split; [intros d line; apply updated_line_match|].
  split; [apply updated_line_other|].
  split; [intros d line; apply updated_line_prefix|].
  rewrite map_map. apply map_ext. intros line. apply updated_line_idempotent.
Qed.

Lemma updated_lines_witness :
  String.prefix (env_key Entity +:+ "=") "ENTITY_COLLECTION_ID=old # note" = true
  /\ CreateCollections.updated_line [("Policy Collection", "p-1")]
       "ENTITY_COLLECTION_ID=old # note"
     = "ENTITY_COLLECTION_ID=" +:+ nl.
Proof.
  assert (H : String.prefix (env_key Entity +:+ "=")
                "ENTITY_COLLECTION_ID=old # note" = true) by reflexivity.
  split; [exact H|].
  rewrite (proj1 (proj2 (proj2 (updated_lines_rewrites_only_collection_ids
                                  [("Policy Collection", "p-1")] [])))
             Entity _ H).
  reflexivity.
Defined.

(** ** The variable names the script prints *)

(** X13.  For each collection the script creates, the variable name it prints
    when there is no [.env] file is the variable the retrieval stage of the
    matching domain reads. *)
Theorem printed_names_are_the_workflow_variables :
  forall name config,
    (name, config) ∈ CreateCollections.collections_to_create ->
    exists d, name = title d +:+ " Collection"
              /\ CreateCollections.env_var_name name = env_key d.
Proof.
  intros name config. unfold CreateCollections.collections_to_create.
  rewrite list_elem_of_In. simpl.
  intros [H|[H|[H|[]]]]; injection H as <- _;
    [exists Policy|exists Entity|exists Market]; split; reflexivity.
Qed.

Lemma printed_names_witness :
  exists d, "Market Collection" = title d +:+ " Collection"
            /\ CreateCollections.env_var_name "Market Collection" = env_key d.
Proof.
  apply (printed_names_are_the_workflow_variables "Market Collection"
           ("Market conditions, sector analysis, and economic indicators",
            [ "references/market_docs/sector_analysis.json";
              "references/market_docs/economic_outlook.json";
              "references/market_docs/competitive_intelligence.json" ])).
  unfold CreateCollections.collections_to_create.
  rewrite list_elem_of_In. simpl. right. right. left. reflexivity.
Defined.

(** ** Running the script: sequencing and [try] *)

Lemma script_run_bind {A B : Type} (w : CreateCollections.world)
    (f : A -> CreateCollections.script B) (p : CreateCollections.script A) :
  CreateCollections.run w (CreateCollections.bind f p)
  = match snd (CreateCollections.run w p) with
    | Returns a =>
        (fst (CreateCollections.run w p) ++ fst (CreateCollections.run w (f a)),
         snd (CreateCollections.run w (f a)))
    | Raises e => (fst (CreateCollections.run w p), Raises e)
    end.
Proof.
  induction p as [a|e|X c k IH]; simpl.
  - destruct (CreateCollections.run w (f a)); reflexivity.
  - reflexivity.
  - rewrite IH. destruct (snd (CreateCollections.run w (k (w X c)))); reflexivity.
Qed.

Lemma script_run_try {A : Type} (w : CreateCollections.world)
    (body : CreateCollections.script A) (handler : exn -> CreateCollections.script A) :
  CreateCollections.run w (CreateCollections.try_except body handler)
  = match snd (CreateCollections.run w body) with
    | Returns a => (fst (CreateCollections.run w body), Returns a)
    | Raises e =>
        (fst (CreateCollections.run w body)
         ++ fst (CreateCollections.run w (handler e)),
         snd (CreateCollections.run w (handler e)))
    end.
Proof.
  induction body as [a|e|X c k IH]; simpl.
  - reflexivity.
  - destruct (CreateCollections.run w (handler e)); reflexivity.
  - rewrite IH. destruct (snd (CreateCollections.run w (k (w X c)))); reflexivity.
Qed.

Lemma script_run_mbind {A B : Type} (w : CreateCollections.world)
    (f : A -> CreateCollections.script B) (p : CreateCollections.script A) :
  CreateCollections.run w (p ≫= f)
  = match snd (CreateCollections.run w p) with
    | Returns a =>
        (fst (CreateCollections.run w p) ++ fst (CreateCollections.run w (f a)),
         snd (CreateCollections.run w (f a)))
    | Raises e => (fst (CreateCollections.run w p), Raises e)
    end.
Proof. apply script_run_bind. Qed.

Lemma script_run_print (w : CreateCollections.world) text :
  CreateCollections.run w (CreateCollections.print text)
  = ([CreateCollections.Event (CreateCollections.Stdout text)], Returns (w _ (CreateCollections.Stdout text))).
Proof. reflexivity. Qed.

Lemma script_run_invoke {A : Type} (w : CreateCollections.world)
    (c : CreateCollections.call (outcome A)) :
  CreateCollections.run w (CreateCollections.invoke c)
  = ([CreateCollections.Event c], w _ c).
Proof. unfold CreateCollections.invoke. simpl. destruct (w _ c); reflexivity. Qed.

(** ** Uploading the documents of a collection *)

Lemma upload_documents_cons (w : CreateCollections.world) doc rest acc :
  CreateCollections.run w (CreateCollections.upload_documents (doc :: rest) acc)
  = if w _ (CreateCollections.PathExists doc) then
      match w _ (CreateCollections.UploadFile doc (CreateCollections.basename doc)) with
      | Returns upload_id =>
          ([ CreateCollections.Event (CreateCollections.PathExists doc);
             CreateCollections.Event (CreateCollections.Stdout ("   📄 Uploading: " +:+ doc));
             CreateCollections.Event
               (CreateCollections.UploadFile doc (CreateCollections.basename doc));
             CreateCollections.Event
               (CreateCollections.Stdout ("   ✅ Uploaded: " +:+ upload_id)) ]
           ++ fst (CreateCollections.run w
                     (CreateCollections.upload_documents rest (acc ++ [upload_id]))),
           snd (CreateCollections.run w
                  (CreateCollections.upload_documents rest (acc ++ [upload_id]))))
      | Raises e =>
          ([ CreateCollections.Event (CreateCollections.PathExists doc);
             CreateCollections.Event (CreateCollections.Stdout ("   📄 Uploading: " +:+ doc));
             CreateCollections.Event
               (CreateCollections.UploadFile doc (CreateCollections.basename doc)) ],
           Raises e)
      end
    else
      ([ CreateCollections.Event (CreateCollections.PathExists doc);
         CreateCollections.Event
           (CreateCollections.Stdout ("   ⚠️  File not found: " +:+ doc)) ]
       ++ fst (CreateCollections.run w (CreateCollections.upload_documents rest acc)),
       snd (CreateCollections.run w (CreateCollections.upload_documents rest acc))).
Proof.
  simpl. destruct (w _ (CreateCollections.PathExists doc)); simpl.
  - destruct (w _ (CreateCollections.UploadFile doc (CreateCollections.basename doc)));
      simpl; reflexivity.
  - reflexivity.
Qed.

(** The calls of [upload_documents]: console lines, tests for a path, and
    uploads of documents that exist under their base name. *)
Lemma upload_documents_events (w : CreateCollections.world) docs : forall acc ev,
  ev ∈ fst (CreateCollections.run w (CreateCollections.upload_documents docs acc)) ->
  created_by ev = None /\ ingested_by ev = None /\ written_by ev = None
  /\ (forall path file_name, uploaded_by ev = Some (path, file_name) ->
        path ∈ docs /\ file_name = CreateCollections.basename path
        /\ w _ (CreateCollections.PathExists path) = true).
Proof.
  induction docs as [|doc rest IH]; intros acc ev.
  - simpl. intros H. destruct (not_elem_of_nil _ H).
  - assert (Htail : forall acc',
              ev ∈ fst (CreateCollections.run w
                          (CreateCollections.upload_documents rest acc')) ->
              created_by ev = None /\ ingested_by ev = None /\ written_by ev = None
              /\ (forall path file_name, uploaded_by ev = Some (path, file_name) ->
                    path ∈ doc :: rest /\ file_name = CreateCollections.basename path
                    /\ w _ (CreateCollections.PathExists path) = true)).
    { intros acc' Hin. destruct (IH _ _ Hin) as (H1 & H2 & H3 & H4).
      split; [exact H1|]. split; [exact H2|]. split; [exact H3|].
      intros path file_name H. destruct (H4 _ _ H) as (Hp & Hf & He).
      split; [apply list_elem_of_further; exact Hp|]. split; assumption. }
    rewrite upload_documents_cons.
    destruct (w _ (CreateCollections.PathExists doc)) eqn:Hex.
    + destruct (w _ (CreateCollections.UploadFile doc (CreateCollections.basename doc)))
        as [upload_id|e]; cbn [fst].
      * rewrite elem_of_app. intros [Hin|Hin]; [|exact (Htail _ Hin)].
        rewrite list_elem_of_In in Hin. simpl in Hin.
        destruct Hin as [<-|[<-|[<-|[<-|[]]]]]; simpl;
          (split; [reflexivity|split; [reflexivity|split; [reflexivity|]]]);
          intros path file_name H;
          first [ discriminate H
                | injection H as <- <-;
                  split; [apply list_elem_of_here|split; [reflexivity|exact Hex]] ].
      * rewrite list_elem_of_In. simpl.
        intros [<-|[<-|[<-|[]]]]; simpl;
          (split; [reflexivity|split; [reflexivity|split; [reflexivity|]]]);
          intros path file_name H;
          first [ discriminate H
                | injection H as <- <-;
                  split; [apply list_elem_of_here|split; [reflexivity|exact Hex]] ].
    + cbn [fst]. rewrite elem_of_app. intros [Hin|Hin]; [|exact (Htail _ Hin)].
      rewrite list_elem_of_In in Hin. simpl in Hin.
      destruct Hin as [<-|[<-|[]]]; simpl;
        (split; [reflexivity|split; [reflexivity|split; [reflexivity|]]]);
        intros path file_name H; discriminate H.
Qed.

Lemma upload_documents_missing (w : CreateCollections.world) docs : forall acc,
  (forall doc, doc ∈ docs -> w _ (CreateCollections.PathExists doc) = false) ->
  snd (CreateCollections.run w (CreateCollections.upload_documents docs acc))
  = Returns acc
  /\ forallb is_quiet
       (fst (CreateCollections.run w (CreateCollections.upload_documents docs acc)))
     = true.
Proof.
  induction docs as [|doc rest IH]; intros acc Hmiss.
  - split; reflexivity.
  - rewrite upload_documents_cons.
    rewrite (Hmiss doc) by apply list_elem_of_here.
    destruct (IH acc) as [Hs Hq].
    { intros d Hd. apply Hmiss. apply list_elem_of_further. exact Hd. }
    split; [exact Hs|]. simpl. exact Hq.
Qed.

Lemma upload_documents_failure (w : CreateCollections.world) docs : forall acc doc e,
  doc ∈ docs ->
  w _ (CreateCollections.PathExists doc) = true ->
  w _ (CreateCollections.UploadFile doc (CreateCollections.basename doc)) = Raises e ->
  exists e',
    snd (CreateCollections.run w (CreateCollections.upload_documents docs acc))
    = Raises e'.
Proof.
  induction docs as [|doc0 rest IH]; intros acc doc e Hin Hex Hup.
  - destruct (not_elem_of_nil _ Hin).
  - rewrite upload_documents_cons.
    apply elem_of_cons in Hin as [<-|Hin].
    + rewrite Hex, Hup. eexists. reflexivity.
    + destruct (w _ (CreateCollections.PathExists doc0)).
      * destruct (w _ (CreateCollections.UploadFile doc0
                         (CreateCollections.basename doc0))) as [id|e0].
        -- simpl. exact (IH _ doc e Hin Hex Hup).
        -- eexists. reflexivity.
      * simpl. exact (IH _ doc e Hin Hex Hup).
Qed.

(** What [upload_documents] returns extends what was already uploaded. *)
Lemma upload_documents_extends (w : CreateCollections.world) docs : forall acc ids,
  snd (CreateCollections.run w (CreateCollections.upload_documents docs acc))
  = Returns ids ->
  exists new, ids = acc ++ new
    /\ length new
       = length (List.filter (fun doc => w _ (CreateCollections.PathExists doc)) docs).
Proof.
  induction docs as [|doc rest IH]; intros acc ids.
  - simpl. intros H. injection H as <-. exists []. rewrite app_nil_r. auto.
  - rewrite upload_documents_cons. simpl List.filter.
    destruct (w _ (CreateCollections.PathExists doc)).
    + destruct (w _ (CreateCollections.UploadFile doc (CreateCollections.basename doc)))
        as [id|e]; [|discriminate].
      simpl. intros H. destruct (IH _ _ H) as (new & -> & Hlen).
      exists (id :: new). rewrite <- app_assoc. simpl. auto.
    + simpl. exact (IH acc ids).
Qed.

(** ** Creating one collection *)

Lemma create_and_ingest_run (w : CreateCollections.world) name description docs :
  let create := CreateCollections.CreateCollection name description in
  let uploads := CreateCollections.run w (CreateCollections.upload_documents docs []) in
  CreateCollections.run w (CreateCollections.create_and_ingest name description docs)
  = match w _ create with
    | Raises e => ([CreateCollections.Event create], Raises e)
    | Returns collection_id =>
        let head :=
          [ CreateCollections.Event create;
            CreateCollections.Event
              (CreateCollections.Stdout ("   ✅ Created collection: " +:+ collection_id)) ]
          ++ fst uploads in
        match snd uploads with
        | Raises e => (head, Raises e)
        | Returns [] => (head, Returns collection_id)
        | Returns (u :: us) =>
            let ingest := CreateCollections.IngestUploads collection_id (u :: us) in
            let announce :=
              CreateCollections.Event
                (CreateCollections.Stdout
                   ("   📄 Ingesting " +:+ pretty (length (u :: us))
                    +:+ " files into collection...")) in
            match w _ ingest with
            | Raises e =>
                (head ++ [announce; CreateCollections.Event ingest], Raises e)
            | Returns _ =>
                (head ++ [ announce; CreateCollections.Event ingest;
                           CreateCollections.Event
                             (CreateCollections.Stdout
                                ("   ✅ Ingested " +:+ pretty (length (u :: us))
                                 +:+ " files")) ],
                 Returns collection_id)
            end
        end
    end.
Proof.
  intros create uploads. subst create uploads.
  unfold CreateCollections.create_and_ingest.
  rewrite script_run_mbind, script_run_invoke. cbn [fst snd].
  destruct (w _ (CreateCollections.CreateCollection name description))
    as [collection_id|e]; [|reflexivity].
  rewrite script_run_mbind, script_run_print. cbn [fst snd].
  rewrite script_run_mbind. cbv zeta.
  destruct (snd (CreateCollections.run w (CreateCollections.upload_documents docs [])))
    as [[|u us]|e]; [| |reflexivity].
  - simpl. rewrite app_nil_r. reflexivity.
  - rewrite script_run_mbind.
    rewrite script_run_mbind, script_run_print. cbn [fst snd].
    rewrite script_run_mbind, script_run_invoke. cbn [fst snd].
    destruct (w _ (CreateCollections.IngestUploads collection_id (u :: us))) as [[]|e].
    + rewrite script_run_print. cbn [fst snd].
      rewrite <- ?app_assoc. simpl. reflexivity.
    + cbn [fst snd]. rewrite <- ?app_assoc. simpl. reflexivity.
Qed.

Ltac script_event_cases H :=
  repeat first
    [ apply elem_of_app in H as [H|H]
    | apply elem_of_cons in H as [H|H]
    | apply not_elem_of_nil in H; destruct H ].

Lemma create_and_ingest_events (w : CreateCollections.world) name description docs ev :
  ev ∈ fst (CreateCollections.run w
              (CreateCollections.create_and_ingest name description docs)) ->
  (forall n d, created_by ev = Some (n, d) -> n = name /\ d = description)
  /\ (forall cid ids, ingested_by ev = Some (cid, ids) ->
        w _ (CreateCollections.CreateCollection name description) = Returns cid
        /\ snd (CreateCollections.run w (CreateCollections.upload_documents docs []))
           = Returns ids
        /\ ids <> [])
  /\ (forall path file_name, uploaded_by ev = Some (path, file_name) ->
        path ∈ docs /\ file_name = CreateCollections.basename path
        /\ w _ (CreateCollections.PathExists path) = true)
  /\ written_by ev = None.
Proof.
  rewrite create_and_ingest_run. cbv zeta.
  assert (Hup : ev ∈ fst (CreateCollections.run w
                            (CreateCollections.upload_documents docs [])) ->
    (forall n d, created_by ev = Some (n, d) -> n = name /\ d = description)
    /\ (forall cid ids, ingested_by ev = Some (cid, ids) ->
          w _ (CreateCollections.CreateCollection name description) = Returns cid
          /\ snd (CreateCollections.run w (CreateCollections.upload_documents docs []))
             = Returns ids
          /\ ids <> [])
    /\ (forall path file_name, uploaded_by ev = Some (path, file_name) ->
          path ∈ docs /\ file_name = CreateCollections.basename path
          /\ w _ (CreateCollections.PathExists path) = true)
    /\ written_by ev = None).
  { intros Hin. destruct (upload_documents_events w docs [] ev Hin) as (H1 & H2 & H3 & H4).
    split; [intros n d H; rewrite H1 in H; discriminate H|].
    split; [intros cid ids H; rewrite H2 in H; discriminate H|].
    split; [exact H4|exact H3]. }
  destruct (w _ (CreateCollections.CreateCollection name description))
    as [collection_id|e] eqn:Hcreate.
  - destruct (snd (CreateCollections.run w (CreateCollections.upload_documents docs [])))
      as [[|u us]|e] eqn:Huploads.
    + cbn [fst]. intros H. script_event_cases H; subst; auto;
        (split; [intros n d E; simpl in E; first [discriminate E|injection E as <- <-; auto]|]);
        (split; [intros cid ids E; discriminate E|]);
        (split; [intros p f E; discriminate E|reflexivity]).
    + destruct (w _ (CreateCollections.IngestUploads collection_id (u :: us)));
        cbn [fst]; intros H; script_event_cases H; subst; auto;
        (split; [intros n d E; simpl in E; first [discriminate E|injection E as <- <-; auto]|]);
        (split; [intros cid ids E; simpl in E;
                 first [discriminate E
                       |injection E as <- <-; split; [reflexivity|split; [reflexivity|discriminate]]]|]);
        (split; [intros p f E; discriminate E|reflexivity]).
    + cbn [fst]. intros H. script_event_cases H; subst; auto;
        (split; [intros n d E; simpl in E; first [discriminate E|injection E as <- <-; auto]|]);
        (split; [intros cid ids E; discriminate E|]);
        (split; [intros p f E; discriminate E|reflexivity]).
  - cbn [fst]. intros H. script_event_cases H; subst.
    split; [intros n d E; simpl in E; injection E as <- <-; auto|].
    split; [intros cid ids E; discriminate E|].
    split; [intros p f E; discriminate E|reflexivity].
Qed.

(** X14.  One collection is created, filled and reported as follows.  The
    identifier returned is the one the service gave on creation, and it is
    returned only if every upload and the ingestion succeeded as well; the
    ingestion, when it happens, is of the uploaded files into the new
    collection, and does not happen when no file was uploaded.  When none of
    the document files exists the collection is created and returned with
    nothing uploaded or ingested.  When the upload of a file that exists
    fails, the attempt raises although the collection has been created, and
    nothing is ingested. *)
Theorem create_and_ingest_outcomes (w : CreateCollections.world)
    (name description : string) (docs : list string) :
  let attempt := CreateCollections.run w
                   (CreateCollections.create_and_ingest name description docs) in
  let created := w _ (CreateCollections.CreateCollection name description) in
  (forall collection_id, snd attempt = Returns collection_id ->
     created = Returns collection_id
     /\ exists ids,
          snd (CreateCollections.run w (CreateCollections.upload_documents docs []))
          = Returns ids
          /\ (ids = []
              \/ exists u, w _ (CreateCollections.IngestUploads collection_id ids)
                           = Returns u))
  /\ (forall ev cid ids, ev ∈ fst attempt -> ingested_by ev = Some (cid, ids) ->
        created = Returns cid
        /\ snd (CreateCollections.run w (CreateCollections.upload_documents docs []))
           = Returns ids
        /\ ids <> [])
  /\ (forall collection_id,
        (forall doc, doc ∈ docs -> w _ (CreateCollections.PathExists doc) = false) ->
        created = Returns collection_id ->
        snd attempt = Returns collection_id
        /\ forall ev, ev ∈ fst attempt -> uploaded_by ev = None /\ ingested_by ev = None)
  /\ (forall collection_id doc e,
        created = Returns collection_id ->
        doc ∈ docs -> w _ (CreateCollections.PathExists doc) = true ->
        w _ (CreateCollections.UploadFile doc (CreateCollections.basename doc))
        = Raises e ->
        (exists e', snd attempt = Raises e')
        /\ (exists ev, ev ∈ fst attempt /\ created_by ev = Some (name, description))
        /\ forall ev, ev ∈ fst attempt -> ingested_by ev = None).
Proof.
  intros attempt created. subst attempt created.
  split; [|split; [|split]].
  - intros collection_id. rewrite create_and_ingest_run. cbv zeta.
    destruct (w _ (CreateCollections.CreateCollection name description))
      as [cid|e]; [|discriminate].
    destruct (snd (CreateCollections.run w (CreateCollections.upload_documents docs [])))
      as [[|u us]|e]; [| |discriminate].
    + simpl. intros H. injection H as <-. split; [reflexivity|].
      exists []. auto.
    + destruct (w _ (CreateCollections.IngestUploads cid (u :: us))) as [r|e] eqn:Hing;
        [|discriminate].
      simpl. intros H. injection H as <-. split; [reflexivity|].
      exists (u :: us). split; [reflexivity|]. right. exists r. exact Hing.
  - intros ev cid ids Hin Hev.
    exact (proj1 (proj2 (create_and_ingest_events w name description docs ev Hin))
             cid ids Hev).
  - intros collection_id Hmiss Hcreate.
    destruct (upload_documents_missing w docs [] Hmiss) as [Hs Hq].
    assert (Hrun : snd (CreateCollections.run w
                          (CreateCollections.create_and_ingest name description docs))
                   = Returns collection_id).
    { rewrite create_and_ingest_run. cbv zeta. rewrite Hcreate, Hs. reflexivity. }
    split; [exact Hrun|].
    intros ev Hin.
    pose proof (create_and_ingest_events w name description docs ev Hin)
      as (_ & Hing & Hupl & _).
    split.
    + destruct (uploaded_by ev) as [[p f]|] eqn:E; [|reflexivity].
      destruct (Hupl p f eq_refl) as (Hp & _ & Hex).
      rewrite (Hmiss p Hp) in Hex. discriminate Hex.
    + destruct (ingested_by ev) as [[cid ids]|] eqn:E; [|reflexivity].
      destruct (Hing cid ids eq_refl) as (_ & Hids & Hne).
      rewrite Hs in Hids. injection Hids as <-. contradiction.
  - intros collection_id doc e Hcreate Hdoc Hex Hup.
    destruct (upload_documents_failure w docs [] doc e Hdoc Hex Hup) as [e' He'].
    split; [|split].
    + exists e'. rewrite create_and_ingest_run. cbv zeta.
      rewrite Hcreate, He'. reflexivity.
    + exists (CreateCollections.Event
                (CreateCollections.CreateCollection name description)).
      split; [|reflexivity].
      rewrite create_and_ingest_run. cbv zeta. rewrite Hcreate, He'.
      cbn [fst]. apply elem_of_app. left. apply list_elem_of_here.
    + intros ev Hin.
      pose proof (create_and_ingest_events w name description docs ev Hin)
        as (_ & Hing & _ & _).
      destruct (ingested_by ev) as [[cid ids]|] eqn:E; [|reflexivity].
      destruct (Hing cid ids eq_refl) as (_ & Hids & _).
      rewrite He' in Hids. discriminate Hids.
Qed.

(** ** The loop over the collections *)

Lemma process_collections_cons (w : CreateCollections.world)
    name description docs rest existing created :
  let hello :=
    CreateCollections.Event
      (CreateCollections.Stdout (nl +:+ "📁 Processing " +:+ name +:+ "...")) in
  let continue created' :=
    CreateCollections.run w
      (CreateCollections.process_collections rest existing created') in
  CreateCollections.run w
    (CreateCollections.process_collections
       ((name, (description, docs)) :: rest) existing created)
  = match existing !! name with
    | Some collection_id =>
        let created' := CreateCollections.dict_set created name collection_id in
        (hello
         :: CreateCollections.Event
              (CreateCollections.Stdout
                 ("   ✅ Collection already exists: " +:+ collection_id))
         :: fst (continue created'),
         snd (continue created'))
    | None =>
        let attempt :=
          CreateCollections.run w
            (CreateCollections.create_and_ingest name description docs) in
        match snd attempt with
        | Returns collection_id =>
            let created' := CreateCollections.dict_set created name collection_id in
            (hello :: fst attempt ++ fst (continue created'), snd (continue created'))
        | Raises e =>
            (hello
             :: fst attempt
             ++ CreateCollections.Event
                  (CreateCollections.Stdout
                     ("   ❌ Error creating " +:+ name +:+ ": " +:+ str_exn e))
             :: fst (continue created),
             snd (continue created))
        end
    end.
Proof.
  cbv zeta. cbn [CreateCollections.process_collections].
  rewrite script_run_mbind, script_run_print. cbn [fst snd].
  destruct (existing !! name) as [collection_id|].
  - rewrite script_run_mbind, script_run_print. cbn [fst snd]. reflexivity.
  - rewrite script_run_mbind, script_run_try, script_run_mbind. cbn [fst snd].
    destruct (snd (CreateCollections.run w
                     (CreateCollections.create_and_ingest name description docs)))
      as [collection_id|e]; cbn [fst snd].
    + rewrite app_nil_r. reflexivity.
    + rewrite script_run_mbind, script_run_print.
      cbn [CreateCollections.run fst snd].
      rewrite ?app_nil_r, <- ?app_assoc. reflexivity.
Qed.

Lemma dict_set_elem d key val n id :
  (n, id) ∈ CreateCollections.dict_set d key val ->
  (n, id) ∈ d \/ (n = key /\ id = val).
Proof.
  induction d as [|[k v] d IH]; simpl.
  - intros H. apply list_elem_of_singleton in H. injection H as -> ->. auto.
  - destruct (String.eqb k key) eqn:E.
    + apply String.eqb_eq in E as ->.
      intros H. apply elem_of_cons in H as [H|H].
      * injection H as -> ->. auto.
      * left. apply list_elem_of_further. exact H.
    + intros H. apply elem_of_cons in H as [H|H].
      * left. rewrite H. apply list_elem_of_here.
      * destruct (IH H) as [H'|H']; [left; apply list_elem_of_further; exact H'|auto].
Qed.

Lemma process_collections_returns (w : CreateCollections.world) todo existing :
  forall created, exists result,
    snd (CreateCollections.run w
           (CreateCollections.process_collections todo existing created))
    = Returns result.
Proof.
  induction todo as [|[name [description docs]] rest IH]; intros created.
  - exists created. reflexivity.
  - rewrite process_collections_cons. cbv zeta.
    destruct (existing !! name); [apply IH|].
    destruct (snd (CreateCollections.run w
                     (CreateCollections.create_and_ingest name description docs)));
      apply IH.
Qed.

Lemma process_collections_events (w : CreateCollections.world) todo existing :
  forall created ev,
    ev ∈ fst (CreateCollections.run w
                (CreateCollections.process_collections todo existing created)) ->
    (forall n d, created_by ev = Some (n, d) ->
       existing !! n = None /\ exists docs, (n, (d, docs)) ∈ todo)
    /\ written_by ev = None.
Proof.
  induction todo as [|[name [description docs]] rest IH]; intros created ev.
  - simpl. intros H. destruct (not_elem_of_nil _ H).
  - assert (Htail : forall created',
              ev ∈ fst (CreateCollections.run w
                          (CreateCollections.process_collections rest existing created')) ->
              (forall n d, created_by ev = Some (n, d) ->
                 existing !! n = None
                 /\ exists docs', (n, (d, docs')) ∈ (name, (description, docs)) :: rest)
              /\ written_by ev = None).
    { intros created' Hin. destruct (IH _ _ Hin) as [H1 H2]. split; [|exact H2].
      intros n d E. destruct (H1 n d E) as (Hn & docs' & Hd).
      split; [exact Hn|]. exists docs'. apply list_elem_of_further. exact Hd. }
    rewrite process_collections_cons. cbv zeta.
    destruct (existing !! name) as [collection_id|] eqn:Hex.
    + cbn [fst]. intros H.
      apply elem_of_cons in H as [->|H];
        [split; [intros n d E; discriminate E|reflexivity]|].
      apply elem_of_cons in H as [->|H];
        [split; [intros n d E; discriminate E|reflexivity]|].
      exact (Htail _ H).
    + assert (Hattempt :
        ev ∈ fst (CreateCollections.run w
                    (CreateCollections.create_and_ingest name description docs)) ->
        (forall n d, created_by ev = Some (n, d) ->
           existing !! n = None
           /\ exists docs', (n, (d, docs')) ∈ (name, (description, docs)) :: rest)
        /\ written_by ev = None).
      { intros Hin.
        destruct (create_and_ingest_events w name description docs ev Hin)
          as (Hc & _ & _ & Hw).
        split; [|exact Hw]. intros n d E. destruct (Hc n d E) as [-> ->].
        split; [exact Hex|]. exists docs. apply list_elem_of_here. }
      destruct (snd (CreateCollections.run w
                       (CreateCollections.create_and_ingest name description docs)));
        cbn [fst]; intros H.
      * apply elem_of_cons in H as [->|H];
          [split; [intros n d E; discriminate E|reflexivity]|].
        apply elem_of_app in H as [H|H]; [exact (Hattempt H)|exact (Htail _ H)].
      * apply elem_of_cons in H as [->|H];
          [split; [intros n d E; discriminate E|reflexivity]|].
        apply elem_of_app in H as [H|H]; [exact (Hattempt H)|].
        apply elem_of_cons in H as [->|H];
          [split; [intros n d E; discriminate E|reflexivity]|].
        exact (Htail _ H).
Qed.

Lemma process_collections_sound (w : CreateCollections.world) todo existing :
  forall created result n id,
    snd (CreateCollections.run w
           (CreateCollections.process_collections todo existing created))
    = Returns result ->
    (n, id) ∈ result ->
    (n, id) ∈ created
    \/ (existing !! n = Some id /\ n ∈ todo.*1)
    \/ (existing !! n = None
        /\ exists description docs,
             (n, (description, docs)) ∈ todo
             /\ snd (CreateCollections.run w
                       (CreateCollections.create_and_ingest n description docs))
                = Returns id).
Proof.
  induction todo as [|[name [description docs]] rest IH];
    intros created result n id.
  - simpl. intros H. injection H as <-. auto.
  - rewrite process_collections_cons. cbv zeta.
    assert (Hlift : forall created',
              snd (CreateCollections.run w
                     (CreateCollections.process_collections rest existing created'))
              = Returns result ->
              (n, id) ∈ result ->
              (n, id) ∈ created'
              \/ (existing !! n = Some id
                  /\ n ∈ ((name, (description, docs)) :: rest).*1)
              \/ (existing !! n = None
                  /\ exists description' docs',
                       (n, (description', docs')) ∈ (name, (description, docs)) :: rest
                       /\ snd (CreateCollections.run w
                                 (CreateCollections.create_and_ingest n description' docs'))
                          = Returns id)).
    { intros created' Hrun Hin.
      destruct (IH created' result n id Hrun Hin) as [H|[[H1 H2]|(H1 & d' & docs' & H2 & H3)]].
      - auto.
      - right. left. split; [exact H1|]. simpl. apply list_elem_of_further. exact H2.
      - right. right. split; [exact H1|]. exists d', docs'.
        split; [apply list_elem_of_further; exact H2|exact H3]. }
    destruct (existing !! name) as [collection_id|] eqn:Hex.
    + cbn [snd]. intros Hrun Hin.
      destruct (Hlift _ Hrun Hin) as [H|H]; [|auto].
      apply dict_set_elem in H as [H|[-> ->]]; [auto|].
      right. left. split; [exact Hex|]. simpl. apply list_elem_of_here.
    + destruct (snd (CreateCollections.run w
                       (CreateCollections.create_and_ingest name description docs)))
        as [collection_id|e] eqn:Hattempt; cbn [snd]; intros Hrun Hin.
      * destruct (Hlift _ Hrun Hin) as [H|H]; [|auto].
        apply dict_set_elem in H as [H|[-> ->]]; [auto|].
        right. right. split; [exact Hex|]. exists description, docs.
        split; [apply list_elem_of_here|exact Hattempt].
      * exact (Hlift _ Hrun Hin).
Qed.

Lemma create_and_ingest_witness :
  (forall doc, doc ∈ ["references/policy_docs/credit_policy.json"] ->
     script_answers false (Returns "c-1") (Returns "u-1") (Returns []) (Returns [])
       _ (CreateCollections.PathExists doc) = false)
  /\ snd (CreateCollections.run
            (script_answers false (Returns "c-1") (Returns "u-1") (Returns []) (Returns []))
            (CreateCollections.create_and_ingest "Policy Collection" "description"
               ["references/policy_docs/credit_policy.json"]))
     = Returns "c-1".
Proof.
  assert (H : forall doc, doc ∈ ["references/policy_docs/credit_policy.json"] ->
     script_answers false (Returns "c-1") (Returns "u-1") (Returns []) (Returns [])
       _ (CreateCollections.PathExists doc) = false) by (intros doc _; reflexivity).
  split; [exact H|].
  pose proof (create_and_ingest_outcomes
                (script_answers false (Returns "c-1") (Returns "u-1") (Returns []) (Returns []))
                "Policy Collection" "description"
                ["references/policy_docs/credit_policy.json"]) as Hthm.
  cbv zeta in Hthm. destruct Hthm as (_ & _ & Hmissing & _).
  exact (proj1 (Hmissing "c-1" H eq_refl)).
Defined.

Lemma process_collections_quiet (w : CreateCollections.world) todo existing :
  forall created,
    (forall entry, entry ∈ todo -> is_Some (existing !! entry.1)) ->
    forallb is_quiet
      (fst (CreateCollections.run w
              (CreateCollections.process_collections todo existing created)))
    = true.
Proof.
  induction todo as [|[name [description docs]] rest IH]; intros created Hall.
  - reflexivity.
  - rewrite process_collections_cons. cbv zeta.
    destruct (Hall (name, (description, docs))) as [collection_id Hex];
      [apply list_elem_of_here|].
    simpl in Hex. rewrite Hex. cbn [fst forallb is_quiet andb].
    apply IH. intros entry Hin. apply Hall. apply list_elem_of_further. exact Hin.
Qed.

(** X15.  A collection that is already listed under its name is never created
    again: every creation call of the loop is for a name that the listing
    lacks.  When every collection to create is listed, the loop only prints:
    no creation, upload or ingestion call is made, and for the three
    collections of the script the identifiers recorded are the listed
    ones. *)
Theorem existing_collections_are_reused (w : CreateCollections.world)
    (todo : list (string * (string * list string)))
    (existing : gmap string string) (created : list (string * string)) :
  let loop := CreateCollections.run w
                (CreateCollections.process_collections todo existing created) in
  (forall ev n d, ev ∈ fst loop -> created_by ev = Some (n, d) ->
     existing !! n = None /\ exists docs, (n, (d, docs)) ∈ todo)
  /\ ((forall entry, entry ∈ todo -> is_Some (existing !! entry.1)) ->
      forallb is_quiet (fst loop) = true)
  /\ (forall idp ide idm,
        existing !! "Policy Collection" = Some idp ->
        existing !! "Entity Collection" = Some ide ->
        existing !! "Market Collection" = Some idm ->
        snd (CreateCollections.run w
               (CreateCollections.process_collections
                  CreateCollections.collections_to_create existing []))
        = Returns [ ("Policy Collection", idp); ("Entity Collection", ide);
                    ("Market Collection", idm) ]).
Proof.
  cbv zeta. split; [|split].
  - intros ev n d Hin. exact (proj1 (process_collections_events w todo existing created ev Hin) n d).
  - apply process_collections_quiet.
  - intros idp ide idm Hp He Hm. unfold CreateCollections.collections_to_create.
    rewrite process_collections_cons. cbv zeta. rewrite Hp. cbn [snd].
    rewrite process_collections_cons. cbv zeta. rewrite He. cbn [snd].
    rewrite process_collections_cons. cbv zeta. rewrite Hm. cbn [snd].
    reflexivity.
Qed.

Lemma existing_collections_witness :
  (forall entry, entry ∈ CreateCollections.collections_to_create ->
     is_Some ((list_to_map [ ("Policy Collection", "p-1"); ("Entity Collection", "e-1");
                             ("Market Collection", "m-1") ] : gmap string string)
              !! entry.1))
  /\ forallb is_quiet
       (fst (CreateCollections.run
               (script_answers true (Raises (Exception "down")) (Raises (Exception "down"))
                  (Returns []) (Returns []))
               (CreateCollections.process_collections
                  CreateCollections.collections_to_create
                  (list_to_map [ ("Policy Collection", "p-1"); ("Entity Collection", "e-1");
                                 ("Market Collection", "m-1") ])
                  [])))
     = true.
Proof.
  assert (H : forall entry, entry ∈ CreateCollections.collections_to_create ->
     is_Some ((list_to_map [ ("Policy Collection", "p-1"); ("Entity Collection", "e-1");
                             ("Market Collection", "m-1") ] : gmap string string)
              !! entry.1)).
  { intros entry. unfold CreateCollections.collections_to_create.
    rewrite list_elem_of_In. simpl.
    intros [<-|[<-|[<-|[]]]]; eexists; reflexivity. }
  split; [exact H|].
  pose proof (existing_collections_are_reused
                (script_answers true (Raises (Exception "down")) (Raises (Exception "down"))
                   (Returns []) (Returns []))
                CreateCollections.collections_to_create
                (list_to_map [ ("Policy Collection", "p-1"); ("Entity Collection", "e-1");
                               ("Market Collection", "m-1") ])
                []) as Hthm.
  cbv zeta in Hthm. exact (proj1 (proj2 Hthm) H).
Defined.

(** X16.  The loop over the collections never raises, whatever the service
    answers.  Every identifier it records is either one that was recorded
    before, or the identifier of a listed collection of that name, or, for a
    name that is not listed, the identifier returned by an attempt that
    succeeded entirely: creation, uploads and ingestion.  So a collection
    whose attempt raised is not recorded. *)
Theorem recorded_collections_are_complete (w : CreateCollections.world)
    (todo : list (string * (string * list string)))
    (existing : gmap string string) (created : list (string * string)) :
  exists result,
    snd (CreateCollections.run w
           (CreateCollections.process_collections todo existing created))
    = Returns result
    /\ (forall n id, (n, id) ∈ result ->
          (n, id) ∈ created
          \/ (existing !! n = Some id /\ n ∈ todo.*1)
          \/ (existing !! n = None
              /\ exists description docs,
                   (n, (description, docs)) ∈ todo
                   /\ snd (CreateCollections.run w
                             (CreateCollections.create_and_ingest n description docs))
                      = Returns id))
    /\ (forall n,
          n ∉ created.*1 -> existing !! n = None ->
          (forall description docs, (n, (description, docs)) ∈ todo ->
             exists e,
               snd (CreateCollections.run w
                      (CreateCollections.create_and_ingest n description docs))
               = Raises e) ->
          n ∉ result.*1).
Proof.
  destruct (process_collections_returns w todo existing created) as [result Hrun].
  exists result. split; [exact Hrun|]. split.
  - intros n id. exact (process_collections_sound w todo existing created result n id Hrun).
  - intros n Hfresh Hnone Hfail Hin.
    apply list_elem_of_fmap in Hin as ([n' id] & -> & Hin). cbn [fst] in *.
    destruct (process_collections_sound w todo existing created result n' id Hrun Hin)
      as [H|[[H _]|(_ & d & docs & Hd & Hok)]].
    + apply Hfresh. apply list_elem_of_fmap. exists (n', id). auto.
    + rewrite Hnone in H. discriminate H.
    + destruct (Hfail d docs Hd) as [e He]. rewrite He in Hok. discriminate Hok.
Qed.

Lemma recorded_collections_witness :
  exists result,
    snd (CreateCollections.run
           (script_answers false (Raises (Exception "quota")) (Returns "u-1")
              (Returns []) (Returns []))
           (CreateCollections.process_collections
              CreateCollections.collections_to_create ∅ []))
    = Returns result
    /\ "Policy Collection" ∉ result.*1.
Proof.
  destruct (recorded_collections_are_complete
              (script_answers false (Raises (Exception "quota")) (Returns "u-1")
                 (Returns []) (Returns []))
              CreateCollections.collections_to_create ∅ [])
    as (result & Hrun & _ & Hnot).
  exists result. split; [exact Hrun|].
  apply Hnot.
  - simpl. apply not_elem_of_nil.
  - apply lookup_empty.
  - intros description docs _. exists (Exception "quota").
    rewrite create_and_ingest_run. reflexivity.
Defined.

(** ** The script as a whole *)

(** X17.  Without [H2OGPTE_API_KEY] (unset or empty) the script builds the client
    and stops there: it raises, [ValueError] naming the variable unless
    building the client raised first, and has listed, created, uploaded and
    written nothing. *)
Theorem main_stops_without_api_key (env : gmap string string)
    (w : CreateCollections.world) :
  env_missing env "H2OGPTE_API_KEY" = true ->
  let connect :=
    CreateCollections.Connect
      (default "https://h2ogpte.genai.h2o.ai" (env !! "H2OGPTE_URL"))
      (env !! "H2OGPTE_API_KEY") in
  CreateCollections.run w (CreateCollections.main env)
  = ([CreateCollections.Event connect],
     match w _ connect with
     | Returns _ =>
         Raises (ValueError
                   ("H2OGPTE_API_KEY environment variable not set. "
                    +:+ "Please check the README for setup instructions and ensure your .env file is configured correctly."))
     | Raises e => Raises e
     end).
Proof.
  intros Hm connect. subst connect. unfold CreateCollections.main.
  rewrite script_run_mbind, script_run_invoke. cbn [fst snd].
  destruct (w _ (CreateCollections.Connect _ _)); [|reflexivity].
  rewrite Hm. reflexivity.
Qed.

Lemma main_stops_witness :
  env_missing env0 "H2OGPTE_API_KEY" = true
  /\ snd (CreateCollections.run
            (script_answers true (Returns "c-1") (Returns "u-1") (Returns []) (Returns []))
            (CreateCollections.main env0))
     = Raises (ValueError (not_set_message "H2OGPTE_API_KEY")).
Proof.
  assert (H : env_missing env0 "H2OGPTE_API_KEY" = true) by reflexivity.
  split; [exact H|].
  pose proof (main_stops_without_api_key env0
                (script_answers true (Returns "c-1") (Returns "u-1") (Returns []) (Returns []))
                H) as Hthm.
  cbv zeta in Hthm. rewrite Hthm. reflexivity.
Defined.

Lemma script_run_path_exists (w : CreateCollections.world) path :
  CreateCollections.run w (CreateCollections.path_exists path)
  = ([CreateCollections.Event (CreateCollections.PathExists path)],
     Returns (w _ (CreateCollections.PathExists path))).
Proof. reflexivity. Qed.

Lemma is_quiet_observers ev :
  is_quiet ev = true ->
  created_by ev = None /\ uploaded_by ev = None /\ ingested_by ev = None
  /\ written_by ev = None.
Proof. destruct ev as [X c]. destruct c; simpl; intros H; try discriminate H; auto. Qed.

Lemma print_ids_run (w : CreateCollections.world) created :
  snd (CreateCollections.run w (CreateCollections.print_ids created)) = Returns tt
  /\ forall ev,
       ev ∈ fst (CreateCollections.run w (CreateCollections.print_ids created)) ->
       is_quiet ev = true.
Proof.
  induction created as [|[name id] rest [IHs IHq]].
  - split; [reflexivity|]. intros ev H. destruct (not_elem_of_nil _ H).
  - cbn [CreateCollections.print_ids].
    rewrite script_run_mbind, script_run_print. cbn [fst snd].
    split; [exact IHs|].
    intros ev H. apply elem_of_cons in H as [->|H]; [reflexivity|exact (IHq ev H)].
Qed.

(** X18.  With the key set, the client built and the collections listed, what is
    left that can make the script raise is reading or writing [.env]:
    failures of creation, upload and ingestion are absorbed by the loop.
    The only file the script writes is [.env], and only when it exists and
    could be read: with its lines rewritten from the identifiers the loop
    recorded. *)
Theorem main_fails_only_outside_the_loop (env : gmap string string)
    (w : CreateCollections.world) (recent : list (string * string)) :
  env_missing env "H2OGPTE_API_KEY" = false ->
  (exists u,
     w _ (CreateCollections.Connect
            (default "https://h2ogpte.genai.h2o.ai" (env !! "H2OGPTE_URL"))
            (env !! "H2OGPTE_API_KEY")) = Returns u) ->
  w _ (CreateCollections.ListRecentCollections 0 1000) = Returns recent ->
  exists created,
    snd (CreateCollections.run w
           (CreateCollections.process_collections
              CreateCollections.collections_to_create
              (CreateCollections.existing_collections recent) []))
    = Returns created
    /\ snd (CreateCollections.run w (CreateCollections.main env))
       = (if w _ (CreateCollections.PathExists ".env") then
            match w _ (CreateCollections.ReadLines ".env") with
            | Raises e => Raises e
            | Returns lines =>
                match w _ (CreateCollections.WriteLines ".env"
                             (CreateCollections.updated_lines created lines)) with
                | Raises e => Raises e
                | Returns _ => Returns tt
                end
            end
          else Returns tt)
    /\ (forall ev path lines',
          ev ∈ fst (CreateCollections.run w (CreateCollections.main env)) ->
          written_by ev = Some (path, lines') ->
          path = ".env"
          /\ w _ (CreateCollections.PathExists ".env") = true
          /\ exists lines,
               w _ (CreateCollections.ReadLines ".env") = Returns lines
               /\ lines' = CreateCollections.updated_lines created lines).
Proof.
  intros Hkey [u Hconnect] Hlist.
  destruct (process_collections_returns w CreateCollections.collections_to_create
              (CreateCollections.existing_collections recent) [])
    as [created Hloop].
  exists created. split; [exact Hloop|].
  assert (Hloop_events : forall ev,
            ev ∈ fst (CreateCollections.run w
                        (CreateCollections.process_collections
                           CreateCollections.collections_to_create
                           (CreateCollections.existing_collections recent) [])) ->
            written_by ev = None).
  { intros ev Hin. exact (proj2 (process_collections_events w _ _ _ _ Hin)). }
  destruct (print_ids_run w created) as [Hids Hquiet].
  assert (Hids_events : forall ev,
            ev ∈ fst (CreateCollections.run w (CreateCollections.print_ids created)) ->
            written_by ev = None).
  { intros ev Hin. apply Hquiet, is_quiet_observers in Hin as (_ & _ & _ & Hw).
    exact Hw. }
  clear Hquiet.
  unfold CreateCollections.main.
  rewrite script_run_mbind, script_run_invoke. cbn [fst snd].
  rewrite Hconnect, Hkey.
  rewrite script_run_mbind, script_run_print. cbn [fst snd].
  rewrite script_run_mbind, script_run_invoke. cbn [fst snd].
  rewrite Hlist.
  rewrite script_run_mbind. rewrite Hloop. cbv zeta.
  remember (fst (CreateCollections.run w
                   (CreateCollections.process_collections
                      CreateCollections.collections_to_create
                      (CreateCollections.existing_collections recent) [])))
    as loop_events eqn:Hle.
  clear Hle Hloop.
  rewrite script_run_mbind, script_run_path_exists. cbn [fst snd].
  rewrite script_run_mbind.
  destruct (w _ (CreateCollections.PathExists ".env")) eqn:Hfound.
  - rewrite script_run_mbind, script_run_print. cbn [fst snd].
    rewrite script_run_mbind, script_run_invoke. cbn [fst snd].
    destruct (w _ (CreateCollections.ReadLines ".env")) as [lines|e] eqn:Hread.
    + rewrite script_run_mbind, script_run_invoke. cbn [fst snd].
      destruct (w _ (CreateCollections.WriteLines ".env"
                       (CreateCollections.updated_lines created lines)))
        as [r|e] eqn:Hwrite.
      * rewrite !script_run_print. cbn [fst snd].
        split; [destruct (w _ (CreateCollections.Stdout _)); reflexivity|].
        intros ev path lines' Hin Hev.
        script_event_cases Hin; subst; try discriminate Hev.
        -- rewrite (Hloop_events ev Hin) in Hev. discriminate Hev.
        -- injection Hev as <- <-. split; [reflexivity|]. split; [reflexivity|].
           exists lines. auto.
      * cbn [fst snd]. split; [reflexivity|].
        intros ev path lines' Hin Hev.
        script_event_cases Hin; subst; try discriminate Hev.
        -- rewrite (Hloop_events ev Hin) in Hev. discriminate Hev.
        -- injection Hev as <- <-. split; [reflexivity|]. split; [reflexivity|].
           exists lines. auto.
    + cbn [fst snd]. split; [reflexivity|].
      intros ev path lines' Hin Hev.
      script_event_cases Hin; subst; try discriminate Hev.
      rewrite (Hloop_events ev Hin) in Hev. discriminate Hev.
  - rewrite script_run_mbind, script_run_print. cbn [fst snd].
    rewrite script_run_mbind, script_run_print. cbn [fst snd].
    rewrite script_run_mbind, script_run_print. cbn [fst snd].
    rewrite Hids.
    remember (fst (CreateCollections.run w (CreateCollections.print_ids created)))
      as ids_events eqn:Hie.
    clear Hie Hids.
    rewrite !script_run_print. cbn [fst snd].
    split; [destruct (w _ (CreateCollections.Stdout _)); reflexivity|].
    intros ev path lines' Hin Hev.
    script_event_cases Hin; subst; try discriminate Hev.
    + rewrite (Hloop_events ev Hin) in Hev. discriminate Hev.
    + rewrite (Hids_events ev Hin) in Hev. discriminate Hev.
Qed.

Lemma main_fails_only_witness :
  env_missing (<["H2OGPTE_API_KEY" := "key"]> env0) "H2OGPTE_API_KEY" = false
  /\ snd (CreateCollections.run
            (script_answers false (Raises (Exception "quota")) (Raises (Exception "down"))
               (Returns []) (Returns []))
            (CreateCollections.main (<["H2OGPTE_API_KEY" := "key"]> env0)))
     = Returns tt.
Proof.
  assert (H : env_missing (<["H2OGPTE_API_KEY" := "key"]> env0) "H2OGPTE_API_KEY"
              = false) by reflexivity.
  split; [exact H|].
  destruct (main_fails_only_outside_the_loop (<["H2OGPTE_API_KEY" := "key"]> env0)
              (script_answers false (Raises (Exception "quota"))
                 (Raises (Exception "down")) (Returns []) (Returns []))
              [] H (ex_intro _ tt eq_refl) eq_refl)
    as (created & _ & Hmain & _).
  rewrite Hmain. reflexivity.
Defined.

(** ** The listing of existing collections *)

Lemma existing_collections_snoc recent c :
  CreateCollections.existing_collections (recent ++ [c])
  = <[fst c := snd c]> (CreateCollections.existing_collections recent).
Proof. unfold CreateCollections.existing_collections. rewrite foldl_app. reflexivity. Qed.

(** X19.  The dict of existing collections maps a name to the identifier of the
    last listed collection of that name; a name is a key exactly when some
    listed collection bears it, and every value is the identifier of a listed
    collection of that name. *)
Theorem existing_collections_last_wins (recent : list (string * string))
    (name id : string) :
  CreateCollections.existing_collections (recent ++ [(name, id)]) !! name = Some id
  /\ (forall later,
        name ∉ later.*1 ->
        CreateCollections.existing_collections (recent ++ (name, id) :: later) !! name
        = Some id)
  /\ (is_Some (CreateCollections.existing_collections recent !! name)
      <-> name ∈ recent.*1)
  /\ (CreateCollections.existing_collections recent !! name = Some id ->
      (name, id) ∈ recent).
Proof.
  assert (Hdom : forall l n,
            is_Some (CreateCollections.existing_collections l !! n) <-> n ∈ l.*1).
  { intros l n. induction l as [|[k v] l IH] using rev_ind.
    - simpl. split; [intros [x Hx]; discriminate Hx|].
      intros H. destruct (not_elem_of_nil _ H).
    - rewrite existing_collections_snoc, fmap_app, elem_of_app. simpl.
      rewrite lookup_insert_is_Some, IH, list_elem_of_singleton.
      split.
      + intros [-> | [_ H]]; auto.
      + intros [H | ->]; [|auto]. destruct (decide (k = n)); auto. }
  assert (Hval : forall l n i,
            CreateCollections.existing_collections l !! n = Some i -> (n, i) ∈ l).
  { intros l n i. induction l as [|[k v] l IH] using rev_ind.
    - simpl. intros H. discriminate H.
    - rewrite existing_collections_snoc, elem_of_app. simpl.
      destruct (decide (k = n)) as [->|Hne].
      + rewrite lookup_insert_eq. intros H. injection H as ->.
        right. apply list_elem_of_here.
      + rewrite lookup_insert_ne by exact Hne. intros H. left. exact (IH H). }
  split; [rewrite existing_collections_snoc; apply lookup_insert_eq|].
  split; [|split; [apply Hdom|apply Hval]].
  intros later. induction later as [|[k v] later IH] using rev_ind; intros Hnot.
  - rewrite existing_collections_snoc. apply lookup_insert_eq.
  - rewrite fmap_app, elem_of_app in Hnot. simpl in Hnot.
    rewrite app_comm_cons, app_assoc, existing_collections_snoc. simpl.
    rewrite lookup_insert_ne.
    + apply IH. intros H. apply Hnot. auto.
    + intros ->. apply Hnot. right. apply list_elem_of_here.
Qed.

Lemma existing_collections_witness2 :
  ("Policy Collection" ∉ ([("Entity Collection", "e-1")] : list (string * string)).*1)
  /\ CreateCollections.existing_collections
       ([("Policy Collection", "old")]
        ++ ("Policy Collection", "new") :: [("Entity Collection", "e-1")])
     !! "Policy Collection" = Some "new".
Proof.
  assert (H : "Policy Collection"
              ∉ ([("Entity Collection", "e-1")] : list (string * string)).*1).
  { simpl. rewrite list_elem_of_In. simpl. intros [E|[]]. discriminate E. }
  split; [exact H|].
  exact (proj1 (proj2 (existing_collections_last_wins
                         [("Policy Collection", "old")] "Policy Collection" "new"))
           [("Entity Collection", "e-1")] H).
Defined.

(** ** The name a document is uploaded under *)

Lemma has_slash_append dir file :
  CreateCollections.has_slash (dir +:+ "/" +:+ file) = true.
Proof.
  induction dir as [|c dir IH]; simpl; [reflexivity|].
  rewrite IH. apply orb_true_r.
Qed.

Lemma basename_no_slash path :
  CreateCollections.has_slash path = false -> CreateCollections.basename path = path.
Proof.
  destruct path as [|c rest]; [reflexivity|]. simpl.
  intros H. apply orb_false_iff in H as [Hc Hrest]. rewrite Hrest, Hc. reflexivity.
Qed.

(** The base name of a path is what follows its last slash: a file name
    without slash comes back from under any directory, a path without slash
    is its own base name, and a base name holds no slash. *)
Lemma basename_is_the_last_component (dir file path : string) :
  (CreateCollections.has_slash file = false ->
   CreateCollections.basename (dir +:+ "/" +:+ file) = file)
  /\ (CreateCollections.has_slash path = false ->
      CreateCollections.basename path = path)
  /\ CreateCollections.has_slash (CreateCollections.basename path) = false.
Proof.
  split; [|split].
  - intros Hfile. induction dir as [|c dir IH].
    + change (CreateCollections.basename (String "/" file) = file).
      simpl. rewrite Hfile. reflexivity.
    + change (CreateCollections.basename (String c (dir +:+ "/" +:+ file)) = file).
      simpl. rewrite has_slash_append. exact IH.
  - apply basename_no_slash.
  - induction path as [|c rest IH]; [reflexivity|]. simpl.
    destruct (CreateCollections.has_slash rest) eqn:Hrest; [exact IH|].
    destruct (Ascii.eqb c "/") eqn:Hc; [exact Hrest|].
    simpl. rewrite Hc, Hrest. reflexivity.
Qed.

Lemma basename_witness :
  CreateCollections.has_slash "credit_policy.json" = false
  /\ CreateCollections.basename ("references/policy_docs" +:+ "/" +:+ "credit_policy.json")
     = "credit_policy.json".
Proof.
  assert (H : CreateCollections.has_slash "credit_policy.json" = false) by reflexivity.
  split; [exact H|].
  exact (proj1 (basename_is_the_last_component "references/policy_docs"
                  "credit_policy.json" "") H).
Defined.
